(** * A drag-and-drop project board: registry, validation, drag handlers

    Shallow embedding of the TypeScript sources
      - [src/state/project-state.ts]: the observable project registry,
      - the single-file build of the application (namespace [App]):
        [validate], [ProjectItem], [ProjectList],
      - [src/components/project-list.ts]
    and the properties of the design document that can be stated on them. *)

From Stdlib Require Import ZArith NArith Ascii String List Bool Lia.
From stdpp Require Import base numbers list.

Local Open Scope Z_scope.

(** ** JavaScript strings and numbers *)

Module Js.

(** A JavaScript string is a sequence of UTF-16 code units; [.length]
    counts code units. *)
Abbreviation jsstring := (list N).

(** Code units of an ASCII literal. *)
Definition lit (s : string) : jsstring :=
  List.map N_of_ascii (list_ascii_of_string s).

(** [a === b] on strings. *)
Definition str_eqb (a b : jsstring) : bool := bool_decide (a = b).

(** WhiteSpace and LineTerminator code points, the ones [trim] removes. *)
Definition is_ws (c : N) : bool :=
  ((9 <=? c) && (c <=? 13)
   || (c =? 32) || (c =? 160) || (c =? 5760)
   || (8192 <=? c) && (c <=? 8202)
   || (c =? 8232) || (c =? 8233) || (c =? 8239) || (c =? 8287)
   || (c =? 12288) || (c =? 65279))%N.

Fixpoint drop_ws (s : jsstring) : jsstring :=
  match s with
  | c :: s' => if is_ws c then drop_ws s' else s
  | [] => []
  end.

(** [String.prototype.trim]. *)
Definition trim (s : jsstring) : jsstring :=
  rev (drop_ws (rev (drop_ws s))).

(** A JavaScript number.  A finite double is represented by a decimal
    [m * 10^e] denoting it (for a double, its shortest round-trip decimal,
    the one [toString] prints); both zeros are [Dec 0 _].  Order and
    equality of doubles are those of their decimals. *)
Inductive number : Type :=
  | NaN
  | Infinity (negative : bool)
  | Dec (m e : Z).

Definition of_nat (n : nat) : number := Dec (Z.of_nat n) 0.

Definition dec_le (m1 e1 m2 e2 : Z) : bool :=
  let e := Z.min e1 e2 in
  m1 * 10 ^ (e1 - e) <=? m2 * 10 ^ (e2 - e).

(** [a <= b]; every comparison with [NaN] is false. *)
Definition num_le (a b : number) : bool :=
  match a, b with
  | NaN, _ | _, NaN => false
  | Infinity true, _ => true
  | _, Infinity false => true
  | Infinity false, _ => false
  | _, Infinity true => false
  | Dec m1 e1, Dec m2 e2 => dec_le m1 e1 m2 e2
  end.

(** [a >= b]. *)
Definition num_ge (a b : number) : bool := num_le b a.

(** Decimal digits, most significant first; no digit for zero. *)
Fixpoint uint_digits (u : Decimal.uint) : list N :=
  match u with
  | Decimal.Nil => []
  | Decimal.D0 u => 0%N :: uint_digits u
  | Decimal.D1 u => 1%N :: uint_digits u
  | Decimal.D2 u => 2%N :: uint_digits u
  | Decimal.D3 u => 3%N :: uint_digits u
  | Decimal.D4 u => 4%N :: uint_digits u
  | Decimal.D5 u => 5%N :: uint_digits u
  | Decimal.D6 u => 6%N :: uint_digits u
  | Decimal.D7 u => 7%N :: uint_digits u
  | Decimal.D8 u => 8%N :: uint_digits u
  | Decimal.D9 u => 9%N :: uint_digits u
  end.

Definition digits (n : N) : list N :=
  match n with
  | N0 => []
  | Npos p => uint_digits (Pos.to_uint p)
  end.

Definition digit_char (d : N) : N := (48 + d)%N.
Definition chars (ds : list N) : jsstring := List.map digit_char ds.

Fixpoint drop_zeros (ds : list N) : list N :=
  match ds with
  | 0%N :: ds' => drop_zeros ds'
  | _ => ds
  end.

Definition strip_trailing_zeros (ds : list N) : list N :=
  rev (drop_zeros (rev ds)).

Definition N_to_chars (n : N) : jsstring :=
  match digits n with
  | [] => lit "0"
  | ds => chars ds
  end.

(** Steps 5 to 10 of Number::toString: [ds] are the [k] digits of [s],
    and the value is [s * 10^(n-k)]. *)
Definition format_digits (ds : list N) (n : Z) : jsstring :=
  let k := Z.of_nat (length ds) in
  if (k <=? n) && (n <=? 21) then
    chars ds ++ repeat 48%N (Z.to_nat (n - k))
  else if (0 <? n) && (n <=? 21) then
    chars (take (Z.to_nat n) ds) ++ lit "." ++ chars (drop (Z.to_nat n) ds)
  else if (-6 <? n) && (n <=? 0) then
    lit "0." ++ repeat 48%N (Z.to_nat (- n)) ++ chars ds
  else
    let ex := n - 1 in
    let sign := if ex <? 0 then lit "-" else lit "+" in
    match ds with
    | [d] => chars [d] ++ lit "e" ++ sign ++ N_to_chars (Z.abs_N ex)
    | d :: ds' =>
        chars [d] ++ lit "." ++ chars ds' ++ lit "e" ++ sign
          ++ N_to_chars (Z.abs_N ex)
    | [] => lit "0"
    end.

(** [Number.prototype.toString()] in radix 10. *)
Definition Number_toString (x : number) : jsstring :=
  match x with
  | NaN => lit "NaN"
  | Infinity false => lit "Infinity"
  | Infinity true => lit "-Infinity"
  | Dec m e =>
      let all := digits (Z.abs_N m) in
      match strip_trailing_zeros all with
      | [] => lit "0"
      | ds =>
          (if m <? 0 then lit "-" else [])
            ++ format_digits ds (Z.of_nat (length all) + e)
      end
  end.

End Js.

(** ** Field validation *)

Module Validation.
Import Js.

(** [value: string | number]. *)
Inductive value : Type :=
  | VStr (s : jsstring)
  | VNum (n : number).

Definition value_toString (v : value) : jsstring :=
  match v with
  | VStr s => s
  | VNum n => Number_toString n
  end.

(** The [Validatable] descriptor; an optional key is [None] when absent. *)
Record Validatable : Type := mkValidatable {
  v_value : value;
  required : option bool;
  minLength : option number;
  maxLength : option number;
  min : option number;
  max : option number
}.

Definition truthy (b : option bool) : bool :=
  match b with Some true => true | _ => false end.

Definition validate (validatableInput : Validatable) : bool :=
  let isValid := true in
  let isValid :=
    if truthy (required validatableInput) then
      isValid
      && negb (length (trim (value_toString (v_value validatableInput))) =? 0)%nat
    else isValid in
  let isValid :=
    match minLength validatableInput, v_value validatableInput with
    | Some m, VStr s => isValid && num_ge (of_nat (length s)) m
    | _, _ => isValid
    end in
  let isValid :=
    match maxLength validatableInput, v_value validatableInput with
    | Some m, VStr s => isValid && num_le (of_nat (length s)) m
    | _, _ => isValid
    end in
  let isValid :=
    match min validatableInput, v_value validatableInput with
    | Some m, VNum n => isValid && num_ge n m
    | _, _ => isValid
    end in
  let isValid :=
    match max validatableInput, v_value validatableInput with
    | Some m, VNum n => isValid && num_le n m
    | _, _ => isValid
    end in
  isValid.

End Validation.

(** ** The project registry *)

Module Registry.
Import Js.

(** Modelled from the spec: the source of [models/project.ts] is not part
    of the sources at hand; [ProjectStatus] and [Project] are taken from the
    data model of the design document and from the way [ProjectState]
    constructs and reads them ([new Project(id, title, description, people,
    status)], [project.id], [project.status]). *)
Inductive ProjectStatus : Type := Active | Finished.

(** Modelled from the spec: the class [Project] of [models/project.ts],
    with the five fields of the data model, in the order of the
    constructor call in [addProject]. *)
Record Project : Type := mkProject {
  id : jsstring;
  title : jsstring;
  description : jsstring;
  people : number;
  status : ProjectStatus
}.

Definition status_eqb (a b : ProjectStatus) : bool :=
  match a, b with
  | Active, Active | Finished, Finished => true
  | _, _ => false
  end.

(** [project.status = s], the write of [moveProject]. *)
Definition set_status (s : ProjectStatus) (p : Project) : Project :=
  mkProject (id p) (title p) (description p) (people p) s.

(** Objects and arrays live in a store and are passed by reference: a
    [Project] object is an index into [objs], an array an index into
    [arrs], holding references to its elements. *)
Abbreviation loc := nat.

(** A listener [(items: T[]) => void] is a client of the registry: it is
    identified by [lname] and may do to the array it is handed whatever
    [lact] says (push, pop, sort, truncate, ...; the identity for a view
    that only reads).  Listeners run to completion and do not call back
    into the registry. *)
Record Listener : Type := mkListener {
  lname : nat;
  lact : list loc -> list loc
}.

(** One invocation of a listener, as observed: which listener, the array it
    was handed, and the projects that array held at the time of the call. *)
Record Call : Type := mkCall {
  who : nat;
  arg : loc;
  seen : list Project
}.

(** The store together with the [ProjectState] singleton: [listeners] and
    [projects] are its two fields ([projects] is the address of its array),
    [calls] is the history of listener invocations and [rounds] counts the
    runs of [updateListeners]. *)
Record World : Type := mkWorld {
  objs : list Project;
  arrs : list (list loc);
  listeners : list Listener;
  projects : loc;
  calls : list Call;
  rounds : nat
}.

Definition read_arr (w : World) (a : loc) : list loc :=
  default [] (arrs w !! a).

(** The projects an array holds, read through the store. *)
Definition view (w : World) (a : loc) : list Project :=
  omap (fun r => objs w !! r) (read_arr w a).

(** [ProjectState.getInstance()] on first access: [new ProjectState()]
    with [listeners = []] and [projects = []]. *)
Definition getInstance : World :=
  mkWorld [] [[]] [] 0%nat [] 0%nat.

(** [listeners.push(fn)]. *)
Definition addListener (fn : Listener) (w : World) : World :=
  mkWorld (objs w) (arrs w) (listeners w ++ [fn]) (projects w)
          (calls w) (rounds w).

(** One iteration of the loop of [updateListeners]:
    [listenerFn(this.projects.slice())]. *)
Definition notify (w : World) (listenerFn : Listener) : World :=
  let copy := read_arr w (projects w) in
  let a := length (arrs w) in
  let w1 := mkWorld (objs w) (arrs w ++ [copy]) (listeners w) (projects w)
                    (calls w) (rounds w) in
  let w2 := mkWorld (objs w1) (arrs w1) (listeners w1) (projects w1)
                    (calls w1 ++ [mkCall (lname listenerFn) a (view w1 a)])
                    (rounds w1) in
  mkWorld (objs w2) (<[a := lact listenerFn (read_arr w2 a)]> (arrs w2))
          (listeners w2) (projects w2) (calls w2) (rounds w2).

Definition updateListeners (w : World) : World :=
  foldl notify
        (mkWorld (objs w) (arrs w) (listeners w) (projects w) (calls w)
                 (S (rounds w)))
        (listeners w).

(** [addProject]; [rnd] is the value [Math.random()] returns in this call. *)
Definition addProject (rnd : number) (title description : jsstring)
    (numOfPeople : number) (w : World) : World :=
  let newProject :=
    mkProject (Number_toString rnd) title description numOfPeople Active in
  let r := length (objs w) in
  let pushed := read_arr w (projects w) ++ [r] in
  updateListeners
    (mkWorld (objs w ++ [newProject]) (<[projects w := pushed]> (arrs w))
             (listeners w) (projects w) (calls w) (rounds w)).

(** [this.projects.find((project) => project.id === projectId)]. *)
Definition find_ref (w : World) (projectId : jsstring) : option loc :=
  List.find
    (fun r => match objs w !! r with
              | Some project => str_eqb (id project) projectId
              | None => false
              end)
    (read_arr w (projects w)).

Definition moveProject (projectId : jsstring) (newStatus : ProjectStatus)
    (w : World) : World :=
  match find_ref w projectId with
  | Some r =>
      match objs w !! r with
      | Some project =>
          if negb (status_eqb (status project) newStatus) then
            updateListeners
              (mkWorld (alter (set_status newStatus) r (objs w)) (arrs w)
                       (listeners w) (projects w) (calls w) (rounds w))
          else w
      | None => w
      end
  | None => w
  end.

(** The commands a client can issue, and a session of them from start-up. *)
Inductive Cmd : Type :=
  | CAddListener (fn : Listener)
  | CAddProject (rnd : number) (title description : jsstring)
                (numOfPeople : number)
  | CMoveProject (projectId : jsstring) (newStatus : ProjectStatus).

Definition exec (w : World) (c : Cmd) : World :=
  match c with
  | CAddListener fn => addListener fn w
  | CAddProject rnd t d n => addProject rnd t d n w
  | CMoveProject i s => moveProject i s w
  end.

Definition run (cmds : list Cmd) : World := foldl exec getInstance cmds.

(** The values [Math.random()] returned during a session, in order. *)
Definition draws (cmds : list Cmd) : list number :=
  omap (fun c => match c with
                 | CAddProject rnd _ _ _ => Some rnd
                 | _ => None
                 end) cmds.

(** The registry's own sequence of projects. *)
Definition snapshot (w : World) : list Project := view w (projects w).

(** First project with a given id in a sequence of projects, with its
    position. *)
Definition find_project (projectId : jsstring) (ps : list Project)
    : option (nat * Project) :=
  list_find (fun p => id p = projectId) ps.

(** A client overwrites the contents of an array it holds. *)
Definition write_arr (a : loc) (xs : list loc) (w : World) : World :=
  mkWorld (objs w) (<[a := xs]> (arrs w)) (listeners w) (projects w)
          (calls w) (rounds w).

End Registry.

(** ** Drag and drop *)

Module Drag.
Import Js Registry.

(** The transfer channel of a drag event: the data store as (format, data)
    entries, in the order they were added, and the allowed effect. *)
Record DataTransfer : Type := mkDataTransfer {
  items : list (jsstring * jsstring);
  effectAllowed : jsstring
}.

(** [dataTransfer.types]. *)
Definition types (dt : DataTransfer) : list jsstring :=
  List.map fst (items dt).

(** [dataTransfer.getData(format)]: the empty string when there is none. *)
Definition getData (format : jsstring) (dt : DataTransfer) : jsstring :=
  match List.find (fun it => str_eqb (fst it) format) (items dt) with
  | Some it => snd it
  | None => []
  end.

(** [dataTransfer.setData(format, data)]: replaces the entry of that
    format. *)
Definition setData (format data : jsstring) (dt : DataTransfer)
    : DataTransfer :=
  mkDataTransfer
    (List.filter (fun it => negb (str_eqb (fst it) format)) (items dt)
       ++ [(format, data)])
    (effectAllowed dt).

Definition set_effectAllowed (e : jsstring) (dt : DataTransfer)
    : DataTransfer :=
  mkDataTransfer (items dt) e.

(** A [DragEvent]; [dataTransfer] is [DataTransfer | null]. *)
Record DragEvent : Type := mkDragEvent {
  dataTransfer : option DataTransfer;
  defaultPrevented : bool
}.

(** Calls into the DOM that a handler makes. *)
Inductive DomCall : Type :=
  | PreventDefault
  | ClassListAdd (token : jsstring)
  | ClassListRemove (token : jsstring).

(** Outcome of a handler: it returns, or an exception propagates. *)
Inductive Completion (A : Type) : Type :=
  | Normal (a : A)
  | ThrowTypeError.
Arguments Normal {A} a.
Arguments ThrowTypeError {A}.

Inductive ListType : Type := active | finished.

(** A [ProjectList]: its fixed [type] and the class list of its [ul]. *)
Record ProjectList : Type := mkProjectList {
  type : ListType;
  classList : list jsstring
}.

(** [classList.add(token)] and [classList.remove(token)]. *)
Definition classList_add (token : jsstring) (cl : list jsstring)
    : list jsstring :=
  if existsb (str_eqb token) cl then cl else cl ++ [token].

Definition classList_remove (token : jsstring) (cl : list jsstring)
    : list jsstring :=
  List.filter (fun c => negb (str_eqb token c)) cl.

(** [ProjectList.dragOverHandler]: the list and the event after the call,
    and the DOM calls made. *)
Definition dragOverHandler (this : ProjectList) (event : DragEvent)
    : ProjectList * DragEvent * list DomCall :=
  match dataTransfer event with
  | Some dt =>
      match head (types dt) with
      | Some t0 =>
          if str_eqb t0 (lit "text/plain") then
            (mkProjectList (type this)
               (classList_add (lit "droppable") (classList this)),
             mkDragEvent (dataTransfer event) true,
             [PreventDefault; ClassListAdd (lit "droppable")])
          else (this, event, [])
      | None => (this, event, [])
      end
  | None => (this, event, [])
  end.

Definition dragLeaveHandler (this : ProjectList) (_ : DragEvent)
    : ProjectList * list DomCall :=
  (mkProjectList (type this)
     (classList_remove (lit "droppable") (classList this)),
   [ClassListRemove (lit "droppable")]).

(** [ProjectList.dropHandler]; [event.dataTransfer!] is dereferenced
    without a test. *)
Definition dropHandler (this : ProjectList) (event : DragEvent) (w : World)
    : Completion World :=
  match dataTransfer event with
  | Some dt =>
      let projectId := getData (lit "text/plain") dt in
      let projectStatus :=
        match type this with active => Active | finished => Finished end in
      Normal (moveProject projectId projectStatus w)
  | None => ThrowTypeError
  end.

(** A [ProjectItem] card and the project it shows. *)
Record ProjectItem : Type := mkProjectItem {
  project : Project
}.

(** [ProjectItem.dragStartHandler]; [event.dataTransfer!] is dereferenced
    without a test, so a [null] channel raises a [TypeError] at the first
    statement. *)
Definition dragStartHandler (this : ProjectItem) (event : DragEvent)
    : Completion DragEvent :=
  match dataTransfer event with
  | Some dt =>
      let dt1 := setData (lit "text/plain") (id (project this)) dt in
      let dt2 := set_effectAllowed (lit "move") dt1 in
      Normal (mkDragEvent (Some dt2) (defaultPrevented event))
  | None => ThrowTypeError
  end.

Definition dragEndHandler (this : ProjectItem) (_ : DragEvent)
    : ProjectItem := this.

End Drag.

(** ** Notions the properties are stated with *)

Module RegistrySpec.
Import Js Registry.

Local Open Scope nat_scope.

(** The calls of one round: the listeners in order, each handed the next
    fresh array, all seeing the projects [v]. *)
Fixpoint calls_from (a : loc) (v : list Project) (ls : list Listener)
    : list Call :=
  match ls with
  | [] => []
  | l :: ls' => mkCall (lname l) a v :: calls_from (S a) v ls'
  end.

(** Representation invariant of the worlds a session reaches: the
    registry's array holds the objects in allocation order, and every array
    handed to a listener is an array of its own. *)
Record wf (w : World) : Prop := mkWf {
  wf_arr : arrs w !! projects w = Some (seq 0 (length (objs w)));
  wf_calls :
    Forall (fun c => arg c < length (arrs w) /\ arg c <> projects w) (calls w);
  wf_args : NoDup (List.map arg (calls w))
}.

(** What a move does is decided by the first project with the id. *)
Definition move_is_noop (projectId : jsstring) (newStatus : ProjectStatus)
    (ps : list Project) : Prop :=
  find_project projectId ps = None
  \/ exists k p, find_project projectId ps = Some (k, p)
                 /\ status p = newStatus.

(** The world after a move that finds a project at position [k] with
    another status. *)
Definition moved (k : nat) (s : ProjectStatus) (w : World) : World :=
  let os := alter (set_status s) k (objs w) in
  mkWorld os
    (arrs w ++ List.map (fun l => lact l (seq 0 (length (objs w))))
                        (listeners w))
    (listeners w) (projects w)
    (calls w ++ calls_from (length (arrs w)) os (listeners w))
    (S (rounds w)).

(** A short session: a listener that empties the array it is handed, one
    that only reads, then one project. *)
Definition clearer (name : nat) : Listener := mkListener name (fun _ => []).
Definition reader (name : nat) : Listener := mkListener name (fun xs => xs).
Definition half : number := Dec 5 (-1).

Definition one_project : list Cmd :=
  [CAddListener (clearer 0); CAddListener (reader 1);
   CAddProject half (lit "T") (lit "a valid description") (Dec 5 0)].

Definition the_project : Project :=
  mkProject (lit "0.5") (lit "T") (lit "a valid description") (Dec 5 0)
            Active.

(** What a round that leaves the world [w'] handed the listener [l] in the
    call [c]: the call is to [l], the projects it saw are the registry's
    sequence, and the array it was given holds what [l] made of a copy of
    the registry's array (that copy itself for a listener that only
    reads). *)
Definition handed (w' : World) (l : Listener) (c : Call) : Prop :=
  who c = lname l
  /\ seen c = snapshot w'
  /\ read_arr w' (arg c) = lact l (read_arr w' (projects w')).

(** A client writes the status of the [k]-th project of an array it holds,
    [items[k].status = s]; nothing is written when there is no such
    entry. *)
Definition write_status (a : loc) (k : nat) (s : ProjectStatus) (w : World)
    : World :=
  match read_arr w a !! k with
  | Some r =>
      mkWorld (alter (set_status s) r (objs w)) (arrs w) (listeners w)
              (projects w) (calls w) (rounds w)
  | None => w
  end.

(** Two listeners that only read, then one project. *)
Definition two_readers : list Cmd :=
  [CAddListener (reader 0); CAddListener (reader 1);
   CAddProject half (lit "T") (lit "a valid description") (Dec 5 0)].

(** A session in which [Math.random()] returns 0.5 twice, and the first of
    the two projects is then moved. *)
Definition collided : list Cmd :=
  [CAddListener (reader 0);
   CAddProject half (lit "T") (lit "a valid description") (Dec 5 0);
   CAddProject half (lit "U") (lit "another one") (Dec 2 0);
   CMoveProject (lit "0.5") Finished].

End RegistrySpec.

Module DragSpec.
Import Js Registry Drag.

(** The declared type of the payload: the first entry of
    [dataTransfer.types], when there is a channel and it has one. *)
Definition declared_type (event : DragEvent) : option jsstring :=
  match dataTransfer event with
  | Some dt => head (types dt)
  | None => None
  end.

Definition text_plain : jsstring := lit "text/plain".
Definition droppable : jsstring := lit "droppable".

Definition card : ProjectItem :=
  mkProjectItem (mkProject (lit "0.5") (lit "T") (lit "a valid description")
                           (Dec 5 0) Active).

Definition no_channel : DragEvent := mkDragEvent None false.

End DragSpec.

(** ** The views: project lists, cards and the input form *)

Module Views.
Import Js Registry Drag.

(** The filter of the listener that [ProjectList.configure] registers:
    the projects whose status is the one of the list. *)
Definition relevantProjects (this : ProjectList) (projects : list Project)
    : list Project :=
  List.filter
    (fun prj =>
       match type this with
       | active => status_eqb (status prj) Active
       | finished => status_eqb (status prj) Finished
       end)
    projects.

(** That listener, as the registry sees it: [filter] builds a new array and
    leaves the one it was handed as it is. *)
Definition list_listener (name : nat) : Listener :=
  mkListener name (fun items => items).

(** What the listener [name] was handed in its latest call, if it was ever
    called. *)
Fixpoint last_seen (name : nat) (cs : list Call) : option (list Project) :=
  match cs with
  | [] => None
  | c :: cs' =>
      match last_seen name cs' with
      | Some v => Some v
      | None => if (who c =? name)%nat then Some (seen c) else None
      end
  end.

(** [this.assignedProjects] of the list whose listener is [name]: [[]] from
    the constructor, then the filtered projects of its latest call. *)
Definition assignedProjects (this : ProjectList) (name : nat) (w : World)
    : list Project :=
  match last_seen name (calls w) with
  | Some projects => relevantProjects this projects
  | None => []
  end.

(** [a === b] on numbers. *)
Definition num_eqb (a b : number) : bool :=
  match a, b with
  | NaN, _ | _, NaN => false
  | Infinity s1, Infinity s2 => Bool.eqb s1 s2
  | Dec m1 e1, Dec m2 e2 => dec_le m1 e1 m2 e2 && dec_le m2 e2 m1 e1
  | _, _ => false
  end.

(** The getter [ProjectItem.persons]. *)
Definition persons (this : ProjectItem) : jsstring :=
  if num_eqb (people (project this)) (Dec 1 0) then lit "1 person"
  else Number_toString (people (project this)) ++ lit " persons".

(** The texts [ProjectItem.renderContent] writes into the card. *)
Record CardText : Type := mkCardText {
  h2_text : jsstring;
  h3_text : jsstring;
  p_text : jsstring
}.

Definition renderContent (this : ProjectItem) : CardText :=
  mkCardText (title (project this))
             (persons this ++ lit " assigned")
             (description (project this)).

End Views.

Module Ui.
Import Js Validation Registry Drag Views.

(** The values of the three input elements of the form. *)
Record ProjectInput : Type := mkProjectInput {
  titleInput : jsstring;
  descriptionInput : jsstring;
  peopleInput : jsstring
}.

(** Calls the form makes into its environment. *)
Inductive FormCall : Type :=
  | SubmitPreventDefault
  | Alert (message : jsstring).

(** The state of the page: the form and the store with the registry. *)
Record Page : Type := mkPage {
  form : ProjectInput;
  world : World
}.

(** What happens to the page: the user edits the fields, submits the form
    ([rnd] is what [Math.random()] returns if a project is created), or
    drops a dragged payload on a list. *)
Inductive UiEvent : Type :=
  | Typed (title description people : jsstring)
  | Submit (rnd : number)
  | Drop (target : ProjectList) (event : DragEvent).

Section WithToNumber.

(** [+enteredPeople]: the conversion of a string to a number is left open;
    whatever it yields, the handlers use it as follows. *)
Variable ToNumber : jsstring -> number.

(** [ProjectInput.gatherUserInput]: the tuple, or nothing after an alert. *)
Definition gatherUserInput (this : ProjectInput)
    : option (jsstring * jsstring * number) * list FormCall :=
  let enteredTitle := titleInput this in
  let enteredDescription := descriptionInput this in
  let enteredPeople := peopleInput this in
  let titleValidatable :=
    mkValidatable (VStr enteredTitle) (Some true) None None None None in
  let descriptionValidatable :=
    mkValidatable (VStr enteredDescription) (Some true) (Some (Dec 5 0))
                  None None None in
  let peopleValidatable :=
    mkValidatable (VNum (ToNumber enteredPeople)) (Some true) None None
                  (Some (Dec 1 0)) (Some (Dec 10 0)) in
  if negb (validate titleValidatable)
     || negb (validate descriptionValidatable)
     || negb (validate peopleValidatable)
  then (None, [Alert (lit "Invalid input, please, try again!")])
  else (Some (enteredTitle, enteredDescription, ToNumber enteredPeople), []).

Definition clearInputs (this : ProjectInput) : ProjectInput :=
  mkProjectInput [] [] [].

(** [ProjectInput.submitHandler]. *)
Definition submitHandler (rnd : number) (this : ProjectInput) (w : World)
    : ProjectInput * World * list FormCall :=
  let '(userInput, made) := gatherUserInput this in
  match userInput with
  | Some (title, description, people) =>
      (clearInputs this, addProject rnd title description people w,
       SubmitPreventDefault :: made)
  | None => (this, w, SubmitPreventDefault :: made)
  end.

(** The page as the last three statements of the program leave it:
    [new ProjectInput(); new ProjectList("active");
     new ProjectList("finished")]. *)
Definition boot : list Cmd :=
  [CAddListener (list_listener 0); CAddListener (list_listener 1)].

Definition start : Page := mkPage (mkProjectInput [] [] []) (run boot).

(** One event; an exception thrown by a handler leaves the page as it
    is. *)
Definition ui_step (pg : Page) (ev : UiEvent) : Page :=
  match ev with
  | Typed t d n => mkPage (mkProjectInput t d n) (world pg)
  | Submit rnd =>
      let '(f, w, _) := submitHandler rnd (form pg) (world pg) in
      mkPage f w
  | Drop target event =>
      match dropHandler target event (world pg) with
      | Normal w => mkPage (form pg) w
      | ThrowTypeError => pg
      end
  end.

Definition ui_run (evs : list UiEvent) : Page := foldl ui_step start evs.

End WithToNumber.

End Ui.

(** ** Notions the further properties are stated with *)

Module MoreSpec.
Import Js Validation Registry Drag Views Ui.

Local Open Scope nat_scope.

(** The fields of a project that no operation rewrites. *)
Definition fields (p : Project) : jsstring * jsstring * jsstring * number :=
  (id p, title p, description p, people p).

(** The listeners a session registers, in order. *)
Definition registered (cmds : list Cmd) : list Listener :=
  omap (fun c => match c with
                 | CAddListener fn => Some fn
                 | _ => None
                 end) cmds.

(** Calls made to the listener [name], and listeners registered under
    that name. *)
Definition calls_to (name : nat) (cs : list Call) : nat :=
  length (List.filter (fun c => who c =? name) cs).

Definition named (name : nat) (ls : list Listener) : nat :=
  length (List.filter (fun l => lname l =? name) ls).

Definition other_name (name : nat) (c : Cmd) : Prop :=
  match c with
  | CAddListener fn => lname fn <> name
  | _ => True
  end.

(** A string of white space only (the empty string included). *)
Definition blank (s : jsstring) : Prop := Forall (fun c => is_ws c = true) s.

(** The status a list is bound to. *)
Definition status_of (this : ProjectList) : ProjectStatus :=
  match type this with active => Active | finished => Finished end.

(** What the form lets through: a title and a description that are not
    blank, a description of five code units or more, and a head-count [n]
    with [1 <= n <= 10]. *)
Definition acceptable (t d : jsstring) (n : number) : Prop :=
  ~ blank t /\ ~ blank d /\ 5 <= length d
  /\ num_le (Dec 1 0) n = true /\ num_le n (Dec 10 0) = true.

Definition valid_project (p : Project) : Prop :=
  acceptable (title p) (description p) (people p).

Definition invalid_input : jsstring := lit "Invalid input, please, try again!".

(** A listener [name] is in step with the registry when the projects of its
    latest call are the registry's, or it was never called and there is
    none. *)
Definition in_step (name : nat) (w : World) : Prop :=
  match last_seen name (calls w) with
  | Some v => v = objs w
  | None => objs w = []
  end.

Definition listens (name : nat) (w : World) : Prop :=
  existsb (fun l => lname l =? name) (listeners w) = true.

(** The three checks of [gatherUserInput] as one boolean. *)
Definition passes (t d : jsstring) (n : number) : bool :=
  negb (length (trim t) =? 0)
  && (negb (length (trim d) =? 0) && (5 <=? length d))
  && (num_le (Dec 1 0) n && num_le n (Dec 10 0)).

(** How many cards a list shows for one project: one or none. *)
Definition shown (this : ProjectList) (q : Project) : nat :=
  length (relevantProjects this [q]).

(** A conversion for the samples: a string of decimal digits to the number
    it writes, the empty string to 0, anything else to [NaN]. *)
Fixpoint digits_value (acc : Z) (s : jsstring) : option Z :=
  match s with
  | [] => Some acc
  | c :: s' =>
      if ((48 <=? c) && (c <=? 57))%N
      then digits_value (10 * acc + Z.of_N (c - 48)) s'
      else None
  end.

Definition digits_ToNumber (s : jsstring) : number :=
  match digits_value 0 s with
  | Some z => Dec z 0
  | None => NaN
  end.

End MoreSpec.

(** * Properties *)

(** ** Strings and numbers *)

Module JsFacts.
Import Js.

Lemma is_ws_printable (c : N) : (33 <= c <= 126)%N -> is_ws c = false.
Proof.
  intros Hc. unfold is_ws.
  rewrite (proj2 (N.leb_gt c 13)) by lia.
  rewrite (proj2 (N.leb_gt 8192 c)) by lia.
  rewrite !(proj2 (N.eqb_neq c _)) by lia.
  now rewrite andb_false_r.
Qed.

Lemma drop_ws_blank (s : jsstring) :
  drop_ws s = [] -> Forall (fun c => is_ws c = true) s.
Proof.
  induction s as [|c s IH]; simpl; intros H.
  - constructor.
  - destruct (is_ws c) eqn:E; [|discriminate].
    constructor; auto.
Qed.

Lemma drop_ws_head (s : jsstring) (c : N) (t : jsstring) :
  drop_ws s = c :: t -> is_ws c = false.
Proof.
  induction s as [|x s IH]; simpl; intros H; [discriminate|].
  destruct (is_ws x) eqn:E; [auto|].
  injection H as -> _. exact E.
Qed.

(** A string with a character that is not white space does not trim to
    the empty string. *)
Lemma trim_nonblank (s : jsstring) (c : N) :
  In c s -> is_ws c = false -> length (trim s) <> 0%nat.
Proof.
  intros Hin Hc Hlen.
  assert (Ht : trim s = []) by (destruct (trim s); [reflexivity|discriminate]).
  unfold trim in Ht.
  assert (Hr : drop_ws (rev (drop_ws s)) = []).
  { rewrite <- (rev_involutive (drop_ws _)). rewrite Ht. reflexivity. }
  apply drop_ws_blank in Hr.
  destruct (drop_ws s) as [|x t] eqn:E.
  - apply drop_ws_blank in E. rewrite Forall_forall in E.
    specialize (E c). rewrite <- list_elem_of_In in Hin.
    rewrite (E Hin) in Hc. discriminate.
  - pose proof (drop_ws_head _ _ _ E) as Hx.
    rewrite Forall_forall in Hr. specialize (Hr x).
    rewrite Hr in Hx; [discriminate|].
    rewrite list_elem_of_In, <- in_rev. left; reflexivity.
Qed.

Lemma uint_digits_bound (u : Decimal.uint) :
  Forall (fun d => (d <= 9)%N) (uint_digits u).
Proof. induction u; simpl; constructor; auto; lia. Qed.

Lemma digits_bound (n : N) : Forall (fun d => (d <= 9)%N) (digits n).
Proof.
  destruct n; simpl; [constructor | apply uint_digits_bound].
Qed.

Lemma drop_zeros_incl (ds : list N) (d : N) :
  In d (drop_zeros ds) -> In d ds.
Proof.
  induction ds as [|x ds IH]; simpl; [tauto|].
  destruct x; simpl; [right; auto | tauto].
Qed.

Lemma strip_trailing_zeros_incl (ds : list N) (d : N) :
  In d (strip_trailing_zeros ds) -> In d ds.
Proof.
  unfold strip_trailing_zeros. rewrite <- in_rev.
  intros H. apply drop_zeros_incl in H. now rewrite <- in_rev in H.
Qed.

Lemma digit_char_not_ws (d : N) : (d <= 9)%N -> is_ws (digit_char d) = false.
Proof. intros H. apply is_ws_printable. unfold digit_char. lia. Qed.

(** Every branch of [format_digits] prints a character that is not white
    space. *)
Lemma format_digits_nonblank (d : N) (ds : list N) (n : Z) :
  (d <= 9)%N ->
  exists c, In c (format_digits (d :: ds) n) /\ is_ws c = false.
Proof.
  intros Hd. unfold format_digits.
  destruct (_ && _).
  { exists (digit_char d). split; [left; reflexivity|].
    now apply digit_char_not_ws. }
  destruct (_ && _).
  { exists 46%N. split; [|reflexivity].
    apply in_or_app. right. left. reflexivity. }
  destruct (_ && _).
  { exists 48%N. split; [left; reflexivity | reflexivity]. }
  exists (digit_char d). split; [|now apply digit_char_not_ws].
  destruct ds; left; reflexivity.
Qed.

(** [toString] of a number never yields a blank string. *)
Lemma Number_toString_nonblank (x : number) :
  exists c, In c (Number_toString x) /\ is_ws c = false.
Proof.
  destruct x as [|[]|m e]; simpl.
  - exists 78%N. split; [left; reflexivity | reflexivity].
  - exists 45%N. split; [left; reflexivity | reflexivity].
  - exists 73%N. split; [left; reflexivity | reflexivity].
  - destruct (strip_trailing_zeros (digits (Z.abs_N m))) as [|d ds] eqn:E.
    + exists 48%N. split; [left; reflexivity | reflexivity].
    + assert (Hd : (d <= 9)%N).
      { pose proof (digits_bound (Z.abs_N m)) as Hb.
        rewrite Forall_forall in Hb. apply Hb.
        rewrite list_elem_of_In.
        apply strip_trailing_zeros_incl. rewrite E. left; reflexivity. }
      destruct (format_digits_nonblank d ds
                  (Z.of_nat (length (digits (Z.abs_N m))) + e) Hd)
        as (c & Hin & Hc).
      exists c. split; [|exact Hc]. apply in_or_app. right. exact Hin.
Qed.

Lemma Number_toString_trim (x : number) :
  length (trim (Number_toString x)) <> 0%nat.
Proof.
  destruct (Number_toString_nonblank x) as (c & Hin & Hc).
  exact (trim_nonblank _ c Hin Hc).
Qed.

(** On integers the order is the order of [Z]. *)
Lemma num_le_integers (a b : Z) : num_le (Dec a 0) (Dec b 0) = (a <=? b).
Proof.
  unfold num_le, dec_le. simpl. now rewrite !Z.mul_1_r.
Qed.

End JsFacts.

(** ** Field validation *)

Module ValidationFacts.
Import Js Validation JsFacts.

(** The value of [validate] as one conjunction of its five checks. *)
Lemma validate_unfold (d : Validatable) :
  validate d =
    (if truthy (required d)
     then negb (length (trim (value_toString (v_value d))) =? 0)%nat
     else true)
    && match minLength d, v_value d with
       | Some m, VStr s => num_ge (of_nat (length s)) m
       | _, _ => true
       end
    && match maxLength d, v_value d with
       | Some m, VStr s => num_le (of_nat (length s)) m
       | _, _ => true
       end
    && match min d, v_value d with
       | Some m, VNum n => num_ge n m
       | _, _ => true
       end
    && match max d, v_value d with
       | Some m, VNum n => num_le n m
       | _, _ => true
       end.
Proof.
  unfold validate.
  destruct (truthy (required d)), (minLength d), (maxLength d), (min d),
    (max d), (v_value d); simpl;
    rewrite ?andb_true_r; reflexivity.
Qed.

(** C6. [validate] returns [true] exactly when every constraint present in
    the descriptor passes: [required] (when set) demands that the trimmed
    string form of the value is not empty; [minLength] and [maxLength] bind
    only a string value, on its raw length; [min] and [max] bind only a
    number value, as inclusive bounds; an absent constraint is not checked.
    The four sample descriptors of the design document evaluate as it
    says, and a value equal to a bound passes. *)
Theorem validate_iff_constraints :
  (forall d : Validatable,
     validate d = true <->
       (required d = Some true ->
          length (trim (value_toString (v_value d))) <> 0%nat)
       /\ (forall m s, minLength d = Some m -> v_value d = VStr s ->
             num_ge (of_nat (length s)) m = true)
       /\ (forall m s, maxLength d = Some m -> v_value d = VStr s ->
             num_le (of_nat (length s)) m = true)
       /\ (forall m n, min d = Some m -> v_value d = VNum n ->
             num_ge n m = true)
       /\ (forall m n, max d = Some m -> v_value d = VNum n ->
             num_le n m = true))
  /\ validate (mkValidatable (VStr (lit "")) (Some true) None None None None)
       = false
  /\ validate (mkValidatable (VStr (lit "ab")) None (Some (Dec 5 0)) None
                 None None) = false
  /\ validate (mkValidatable (VNum (Dec 11 0)) None None None
                 (Some (Dec 1 0)) (Some (Dec 10 0))) = false
  /\ validate (mkValidatable (VStr (lit "ok")) (Some true) None None None
                 None) = true
  /\ validate (mkValidatable (VNum (Dec 10 0)) None None None
                 (Some (Dec 1 0)) (Some (Dec 10 0))) = true
  /\ validate (mkValidatable (VNum (Dec 1 0)) None None None
                 (Some (Dec 1 0)) (Some (Dec 10 0))) = true.
Proof.
  split; [|repeat split; reflexivity].
  intros d. rewrite validate_unfold, !andb_true_iff.
  split.
  - intros [[[[Hr Hmin] Hmax] Hlo] Hhi]. repeat split.
    + intros Hreq. rewrite Hreq in Hr. simpl in Hr.
      apply negb_true_iff, Nat.eqb_neq in Hr. exact Hr.
    + intros m s Hm Hv. now rewrite Hm, Hv in Hmin.
    + intros m s Hm Hv. now rewrite Hm, Hv in Hmax.
    + intros m n Hm Hv. now rewrite Hm, Hv in Hlo.
    + intros m n Hm Hv. now rewrite Hm, Hv in Hhi.
  - intros (Hr & Hmin & Hmax & Hlo & Hhi). repeat split.
    + destruct (required d) as [[]|]; simpl; try reflexivity.
      apply negb_true_iff, Nat.eqb_neq. now apply Hr.
    + destruct (minLength d) as [m|], (v_value d) as [s|n]; try reflexivity.
      now apply Hmin.
    + destruct (maxLength d) as [m|], (v_value d) as [s|n]; try reflexivity.
      now apply Hmax.
    + destruct (min d) as [m|], (v_value d) as [s|n]; try reflexivity.
      now apply Hlo.
    + destruct (max d) as [m|], (v_value d) as [s|n]; try reflexivity.
      now apply Hhi.
Qed.

(** C10. On a number value the [required] check always passes, since the
    string form of a number ([0] and [NaN] included) has a character that
    is not white space; a descriptor with a number value and [required]
    alone is valid, and in general a number value is rejected only by
    [min] or [max]. *)
Theorem required_never_rejects_number :
  forall n : number,
    length (trim (value_toString (VNum n))) <> 0%nat
    /\ validate (mkValidatable (VNum n) (Some true) None None None None)
         = true
    /\ forall req minL maxL lo hi,
         validate (mkValidatable (VNum n) req minL maxL lo hi)
         = match lo with Some m => num_ge n m | None => true end
           && match hi with Some m => num_le n m | None => true end.
Proof.
  intros n.
  assert (Hne : length (trim (value_toString (VNum n))) <> 0%nat)
    by apply Number_toString_trim.
  assert (Hall : forall req minL maxL lo hi,
    validate (mkValidatable (VNum n) req minL maxL lo hi)
    = match lo with Some m => num_ge n m | None => true end
      && match hi with Some m => num_le n m | None => true end).
  { intros req minL maxL lo hi. rewrite validate_unfold. simpl.
    apply Nat.eqb_neq in Hne. simpl in Hne. rewrite Hne.
    destruct (truthy req), minL, maxL, lo, hi; reflexivity. }
  split; [exact Hne|]. split; [|exact Hall].
  rewrite Hall. reflexivity.
Qed.

End ValidationFacts.

(** ** The project registry *)

Module RegistryFacts.
Import Js Registry RegistrySpec.

Local Open Scope nat_scope.

Lemma calls_from_who a v ls :
  List.map who (calls_from a v ls) = List.map lname ls.
Proof.
  revert a. induction ls as [|l ls IH]; intros a; simpl;
    [reflexivity | now rewrite IH].
Qed.

Lemma calls_from_arg a v ls :
  List.map arg (calls_from a v ls) = seq a (length ls).
Proof.
  revert a. induction ls as [|l ls IH]; intros a; simpl;
    [reflexivity | now rewrite IH].
Qed.

Lemma calls_from_seen a v ls :
  Forall (fun c => seen c = v) (calls_from a v ls).
Proof.
  revert a. induction ls as [|l ls IH]; intros a; simpl; constructor; auto.
Qed.

Lemma calls_from_length a v ls : length (calls_from a v ls) = length ls.
Proof.
  revert a. induction ls as [|l ls IH]; intros a; simpl;
    [reflexivity | now rewrite IH].
Qed.

Lemma calls_from_arg_range a v ls c :
  In c (calls_from a v ls) -> a <= arg c < a + length ls.
Proof.
  intros Hin. apply (in_map arg) in Hin.
  rewrite calls_from_arg, in_seq in Hin. exact Hin.
Qed.

Lemma omap_lookup_seq (l1 l2 : list Project) :
  omap (fun r => (l1 ++ l2) !! r) (seq (length l1) (length l2)) = l2.
Proof.
  revert l1. induction l2 as [|x l2 IH]; intros l1; simpl; [reflexivity|].
  rewrite (list_lookup_middle l1 l2 x (length l1) eq_refl). f_equal.
  specialize (IH (l1 ++ [x])).
  rewrite length_app, Nat.add_1_r, <- app_assoc in IH. exact IH.
Qed.

Lemma omap_lookup_all (l : list Project) :
  omap (fun r => l !! r) (seq 0 (length l)) = l.
Proof. exact (omap_lookup_seq [] l). Qed.

Lemma snapshot_wf w : wf w -> snapshot w = objs w.
Proof.
  intros [Ha _ _]. unfold snapshot, view, read_arr. rewrite Ha. simpl.
  apply omap_lookup_all.
Qed.

(** *** [updateListeners] in closed form *)

Lemma notify_eq w l xs :
  arrs w !! projects w = Some xs ->
  notify w l =
    mkWorld (objs w) (arrs w ++ [lact l xs]) (listeners w) (projects w)
      (calls w ++ [mkCall (lname l) (length (arrs w))
                          (omap (fun r => objs w !! r) xs)])
      (rounds w).
Proof.
  intros H. unfold notify, view, read_arr. simpl. rewrite H. simpl.
  rewrite (list_lookup_middle (arrs w) [] xs (length (arrs w)) eq_refl).
  simpl. rewrite insert_app_r_alt by lia. rewrite Nat.sub_diag. reflexivity.
Qed.

Lemma foldl_notify ls : forall w xs,
  arrs w !! projects w = Some xs ->
  foldl notify w ls =
    mkWorld (objs w) (arrs w ++ List.map (fun l => lact l xs) ls)
      (listeners w) (projects w)
      (calls w ++ calls_from (length (arrs w))
                             (omap (fun r => objs w !! r) xs) ls)
      (rounds w).
Proof.
  induction ls as [|l ls IH]; intros w xs H; simpl.
  - rewrite !app_nil_r. now destruct w.
  - rewrite (notify_eq w l xs H).
    rewrite (IH _ xs) by (simpl; now apply lookup_app_l_Some).
    simpl. rewrite length_app, Nat.add_1_r, <- !app_assoc. reflexivity.
Qed.

Lemma updateListeners_eq w xs :
  arrs w !! projects w = Some xs ->
  updateListeners w =
    mkWorld (objs w) (arrs w ++ List.map (fun l => lact l xs) (listeners w))
      (listeners w) (projects w)
      (calls w ++ calls_from (length (arrs w))
                             (omap (fun r => objs w !! r) xs) (listeners w))
      (S (rounds w)).
Proof.
  intros H. unfold updateListeners. now rewrite (foldl_notify _ _ xs).
Qed.

(** *** [addProject] and [moveProject] in closed form *)

Lemma read_arr_Some w a xs : arrs w !! a = Some xs -> read_arr w a = xs.
Proof. intros H. unfold read_arr. now rewrite H. Qed.

Lemma addProject_eq rnd t d n w :
  wf w ->
  addProject rnd t d n w =
    let p := mkProject (Number_toString rnd) t d n Active in
    let xs := seq 0 (S (length (objs w))) in
    mkWorld (objs w ++ [p])
      (<[projects w := xs]> (arrs w)
         ++ List.map (fun l => lact l xs) (listeners w))
      (listeners w) (projects w)
      (calls w ++ calls_from (length (arrs w)) (objs w ++ [p]) (listeners w))
      (S (rounds w)).
Proof.
  intros [Ha _ _]. unfold addProject.
  rewrite (read_arr_Some _ _ _ Ha). cbv zeta.
  assert (Hlt : projects w < length (arrs w))
    by (eapply lookup_lt_Some; exact Ha).
  replace (seq 0 (length (objs w)) ++ [length (objs w)])
    with (seq 0 (S (length (objs w)))) by (now rewrite seq_S).
  rewrite (updateListeners_eq _ (seq 0 (S (length (objs w)))))
    by (cbn [arrs projects]; now apply list_lookup_insert_eq).
  cbn [objs arrs listeners projects calls rounds].
  rewrite length_insert. f_equal. f_equal. f_equal.
  replace (S (length (objs w))) with (length (objs w ++ [
    mkProject (Number_toString rnd) t d n Active]))
    by (rewrite length_app; simpl; lia).
  apply omap_lookup_all.
Qed.

Lemma find_seq (i : jsstring) (l1 l2 : list Project) :
  List.find
    (fun r => match (l1 ++ l2) !! r with
              | Some project => str_eqb (id project) i
              | None => false
              end)
    (seq (length l1) (length l2))
  = (fun kp => length l1 + fst kp) <$> find_project i l2.
Proof.
  revert l1. induction l2 as [|x l2 IH]; intros l1; [reflexivity|].
  cbn [length seq List.find].
  rewrite (list_lookup_middle l1 l2 x (length l1) eq_refl).
  unfold find_project, str_eqb. cbn [list_find].
  destruct (decide (id x = i)) as [E|E].
  - rewrite bool_decide_eq_true_2 by exact E. simpl. f_equal. lia.
  - rewrite bool_decide_eq_false_2 by exact E.
    specialize (IH (l1 ++ [x])).
    rewrite length_app, Nat.add_1_r, <- app_assoc in IH. simpl in IH.
    unfold str_eqb in IH. rewrite IH. unfold find_project.
    destruct (list_find _ l2) as [[k q]|]; simpl; [f_equal; lia | reflexivity].
Qed.

Lemma find_ref_wf i w :
  wf w -> find_ref w i = fst <$> find_project i (objs w).
Proof.
  intros [Ha _ _]. unfold find_ref. rewrite (read_arr_Some _ _ _ Ha).
  pose proof (find_seq i [] (objs w)) as H.
  cbn [app length Nat.add] in H. rewrite H.
  destruct (find_project i (objs w)) as [[k q]|]; reflexivity.
Qed.

Lemma status_eqb_eq a b : status_eqb a b = true <-> a = b.
Proof. destruct a, b; simpl; split; congruence. Qed.

Lemma find_project_Some i ps k p :
  find_project i ps = Some (k, p) ->
  ps !! k = Some p /\ id p = i
  /\ forall j q, ps !! j = Some q -> j < k -> id q <> i.
Proof. unfold find_project. now rewrite list_find_Some. Qed.

Lemma find_project_None i ps :
  find_project i ps = None <-> Forall (fun p => id p <> i) ps.
Proof. unfold find_project. apply list_find_None. Qed.

(** With pairwise distinct ids, a project is the first one with its id. *)
Lemma find_project_unique ps k p :
  NoDup (List.map id ps) -> ps !! k = Some p ->
  find_project (id p) ps = Some (k, p).
Proof.
  intros Hn Hk. unfold find_project. apply list_find_Some.
  split; [exact Hk|]. split; [reflexivity|].
  intros j q Hj Hlt E.
  assert (j = k); [|lia].
  apply (NoDup_lookup _ j k (id p) Hn).
  - change (List.map id ps) with (id <$> ps).
    now rewrite list_lookup_fmap, Hj, <- E.
  - change (List.map id ps) with (id <$> ps).
    now rewrite list_lookup_fmap, Hk.
Qed.

Lemma moveProject_eq i s w :
  wf w ->
  moveProject i s w =
    match find_project i (objs w) with
    | Some (k, p) =>
        if status_eqb (status p) s then w else moved k s w
    | None => w
    end.
Proof.
  intros Hw. unfold moveProject. rewrite (find_ref_wf i w Hw).
  destruct (find_project i (objs w)) as [[k p]|] eqn:E; simpl; [|reflexivity].
  apply find_project_Some in E. destruct E as (Hk & _ & _). rewrite Hk.
  destruct (status_eqb (status p) s); simpl; [reflexivity|].
  destruct Hw as [Ha _ _].
  rewrite (updateListeners_eq _ (seq 0 (length (objs w)))) by exact Ha.
  unfold moved. simpl. f_equal. f_equal.
  rewrite <- (length_alter (set_status s) (objs w) k) at 1.
  now rewrite omap_lookup_all.
Qed.

(** *** The invariant holds in every world a session reaches *)

Lemma wf_getInstance : wf getInstance.
Proof. split; simpl; [reflexivity | constructor | constructor]. Qed.

Lemma wf_round os arr0 ls p cs n xs :
  arr0 !! p = Some (seq 0 (length os)) ->
  Forall (fun c => arg c < length arr0 /\ arg c <> p) cs ->
  NoDup (List.map arg cs) ->
  forall v,
  wf (mkWorld os (arr0 ++ List.map (fun l => lact l xs) ls) ls p
        (cs ++ calls_from (length arr0) v ls) n).
Proof.
  intros Ha Hc Hn v.
  assert (Hlt : p < length arr0) by (eapply lookup_lt_Some; exact Ha).
  split; simpl.
  - now apply lookup_app_l_Some.
  - rewrite length_app, length_map. apply Forall_app. split.
    + eapply Forall_impl; [exact Hc|]. simpl. intros c [H1 H2]. split; [lia|auto].
    + apply Forall_forall. intros c Hin. rewrite list_elem_of_In in Hin.
      apply calls_from_arg_range in Hin. lia.
  - rewrite map_app, calls_from_arg. apply NoDup_app. repeat split.
    + exact Hn.
    + intros a Ha1 Ha2. rewrite list_elem_of_In in Ha1, Ha2.
      apply in_map_iff in Ha1. destruct Ha1 as (c & <- & Hin).
      rewrite Forall_forall in Hc. rewrite <- list_elem_of_In in Hin.
      apply Hc in Hin. apply in_seq in Ha2. lia.
    + apply NoDup_ListNoDup, seq_NoDup.
Qed.

Lemma wf_exec w c : wf w -> wf (exec w c).
Proof.
  intros Hw. destruct c as [fn | rnd t d n | i s]; simpl.
  - destruct Hw as [Ha Hc Hn]. split; assumption.
  - rewrite (addProject_eq _ _ _ _ _ Hw). cbv zeta.
    destruct Hw as [Ha Hc Hn].
    assert (Hlt : projects w < length (arrs w))
      by (eapply lookup_lt_Some; exact Ha).
    rewrite <- (length_insert (arrs w) (projects w)
                  (seq 0 (S (length (objs w))))).
    apply wf_round.
    + rewrite length_app, Nat.add_1_r. now apply list_lookup_insert_eq.
    + rewrite length_insert. exact Hc.
    + exact Hn.
  - rewrite (moveProject_eq _ _ _ Hw).
    destruct (find_project i (objs w)) as [[k p]|]; [|exact Hw].
    destruct (status_eqb (status p) s); [exact Hw|].
    destruct Hw as [Ha Hc Hn]. unfold moved. apply wf_round.
    + now rewrite length_alter.
    + exact Hc.
    + exact Hn.
Qed.

(** *** What the listeners of a round are handed *)

Lemma calls_from_handed W v xs arr0 (ls : list Listener) : forall pre,
  arrs W = arr0 ++ List.map (fun l => lact l xs) (pre ++ ls) ->
  read_arr W (projects W) = xs ->
  snapshot W = v ->
  Forall2 (handed W) ls (calls_from (length arr0 + length pre) v ls).
Proof.
  induction ls as [|l ls IH]; intros pre Harr Hxs Hv; [constructor|].
  cbn [calls_from]. constructor.
  - unfold handed. cbn [who seen arg]. split; [reflexivity|].
    split; [now symmetry|].
    rewrite Hxs. unfold read_arr. rewrite Harr.
    rewrite lookup_app_r by lia.
    replace (length arr0 + length pre - length arr0) with (length pre)
      by lia.
    rewrite map_app. cbn [List.map].
    rewrite (list_lookup_middle _ _ _ (length pre))
      by (now rewrite length_map).
    reflexivity.
  - specialize (IH (pre ++ [l])).
    rewrite length_app, <- app_assoc in IH. cbn [length app] in IH.
    replace (length arr0 + (length pre + 1))
      with (S (length arr0 + length pre)) in IH by lia.
    now apply IH.
Qed.

Lemma addProject_handed rnd t d n w :
  wf w ->
  Forall2 (handed (addProject rnd t d n w)) (listeners w)
    (calls_from (length (arrs w))
       (objs w ++ [mkProject (Number_toString rnd) t d n Active])
       (listeners w)).
Proof.
  intros Hw.
  pose proof (wf_exec w (CAddProject rnd t d n) Hw) as Hw'. cbn [exec] in Hw'.
  pose proof (addProject_eq rnd t d n w Hw) as E. cbv zeta in E.
  set (W := addProject rnd t d n w) in *.
  pose proof (calls_from_handed W
                (objs w ++ [mkProject (Number_toString rnd) t d n Active])
                (seq 0 (S (length (objs w))))
                (<[projects w := seq 0 (S (length (objs w)))]> (arrs w))
                (listeners w) []) as H.
  rewrite length_insert, Nat.add_0_r in H. apply H.
  - now rewrite E.
  - rewrite (read_arr_Some _ _ _ (wf_arr _ Hw')). rewrite E. cbn [objs].
    now rewrite length_app, Nat.add_1_r.
  - rewrite (snapshot_wf _ Hw'). now rewrite E.
Qed.

Lemma moved_handed i s w k p :
  wf w ->
  find_project i (objs w) = Some (k, p) ->
  status_eqb (status p) s = false ->
  Forall2 (handed (moveProject i s w)) (listeners w)
    (calls_from (length (arrs w)) (alter (set_status s) k (objs w))
                (listeners w)).
Proof.
  intros Hw Hf Hs.
  pose proof (wf_exec w (CMoveProject i s) Hw) as Hw'. cbn [exec] in Hw'.
  pose proof (moveProject_eq i s w Hw) as E. rewrite Hf, Hs in E.
  set (W := moveProject i s w) in *.
  pose proof (calls_from_handed W (alter (set_status s) k (objs w))
                (seq 0 (length (objs w))) (arrs w) (listeners w) []) as H.
  rewrite Nat.add_0_r in H. apply H.
  - now rewrite E.
  - rewrite (read_arr_Some _ _ _ (wf_arr _ Hw')). rewrite E. unfold moved.
    cbn [objs]. now rewrite length_alter.
  - rewrite (snapshot_wf _ Hw'). now rewrite E.
Qed.

Lemma run_snoc cmds c : run (cmds ++ [c]) = exec (run cmds) c.
Proof. unfold run. now rewrite foldl_snoc. Qed.

Lemma wf_run cmds : wf (run cmds).
Proof.
  induction cmds as [|c cmds IH] using rev_ind.
  - exact wf_getInstance.
  - rewrite run_snoc. now apply wf_exec.
Qed.

End RegistryFacts.

Module RegistryClaims.
Import Js Registry RegistrySpec RegistryFacts.

Local Open Scope nat_scope.

Lemma alter_as_insert {A} (f : A -> A) (l : list A) k x :
  l !! k = Some x -> alter f k l = <[k := f x]> l.
Proof.
  intros H. apply list_eq. intros j. destruct (decide (j = k)) as [->|Hne].
  - rewrite list_lookup_alter_eq, H.
    rewrite list_lookup_insert_eq by (eapply lookup_lt_Some; exact H).
    reflexivity.
  - rewrite list_lookup_alter_ne, list_lookup_insert_ne by congruence.
    reflexivity.
Qed.

Lemma map_alter_set_status {B} (g : Project -> B) s k (l : list Project) :
  (forall p, g (set_status s p) = g p) ->
  List.map g (alter (set_status s) k l) = List.map g l.
Proof.
  intros Hg. revert k. induction l as [|x l IH]; intros k; [reflexivity|].
  destruct k as [|k]; simpl; [now rewrite Hg | f_equal; apply IH].
Qed.

Lemma draws_snoc cmds c :
  draws (cmds ++ [c]) =
    draws cmds ++ match c with
                  | CAddProject rnd _ _ _ => [rnd]
                  | _ => []
                  end.
Proof.
  unfold draws. rewrite omap_app. f_equal. now destruct c.
Qed.

(** The ids in the registry are the string forms of the values
    [Math.random()] returned, in order. *)
Lemma ids_are_draws cmds :
  List.map id (objs (run cmds)) = List.map Number_toString (draws cmds).
Proof.
  induction cmds as [|c cmds IH] using rev_ind; [reflexivity|].
  rewrite run_snoc, draws_snoc, map_app, <- IH.
  pose proof (wf_run cmds) as Hw.
  destruct c as [fn | rnd t d n | i s]; simpl.
  - now rewrite app_nil_r.
  - rewrite (addProject_eq _ _ _ _ _ Hw). simpl. now rewrite map_app.
  - rewrite app_nil_r, (moveProject_eq _ _ _ Hw).
    destruct (find_project i (objs (run cmds))) as [[k p]|]; [|reflexivity].
    destruct (status_eqb (status p) s); [reflexivity|].
    unfold moved. simpl. now apply map_alter_set_status.
Qed.

(** C1, as the code has it.  The [n]-th [addProject] of a session hands
    every listener a snapshot of length [n] whose ids are the string forms
    of the [n] values [Math.random()] returned so far, in order; the ids of
    a snapshot are pairwise distinct exactly when those strings are. *)
Theorem addProject_snapshot_length_and_ids :
  forall (cmds : list Cmd) rnd t d n,
    let w := run cmds in
    let w' := addProject rnd t d n w in
    let rs := draws cmds ++ [rnd] in
    length (snapshot w') = length rs
    /\ exists cs,
         calls w' = calls w ++ cs
         /\ length cs = length (listeners w)
         /\ Forall (fun c =>
                      length (seen c) = length rs
                      /\ List.map id (seen c) = List.map Number_toString rs
                      /\ (NoDup (List.map id (seen c))
                          <-> NoDup (List.map Number_toString rs)))
                   cs.
Proof.
  intros cmds rnd t d n w w' rs.
  pose proof (wf_run cmds) as Hw. fold w in Hw.
  assert (Hw' : wf w') by exact (wf_exec w (CAddProject rnd t d n) Hw).
  assert (Hids : List.map id (objs w') = List.map Number_toString rs).
  { pose proof (ids_are_draws (cmds ++ [CAddProject rnd t d n])) as H.
    now rewrite run_snoc, draws_snoc in H. }
  assert (Hlen : length (objs w') = length rs).
  { rewrite <- (length_map id), Hids. apply length_map. }
  split; [now rewrite (snapshot_wf _ Hw')|].
  assert (Hobjs : objs w' = objs w
            ++ [mkProject (Number_toString rnd) t d n Active]).
  { unfold w'. now rewrite (addProject_eq _ _ _ _ _ Hw). }
  exists (calls_from (length (arrs w)) (objs w') (listeners w)).
  split; [|split].
  - rewrite Hobjs. unfold w'. now rewrite (addProject_eq _ _ _ _ _ Hw).
  - apply calls_from_length.
  - eapply Forall_impl; [apply calls_from_seen|].
    intros c Hc. simpl in Hc. rewrite Hc, Hids. repeat split; auto.
Qed.

(** C2. [addProject] builds the project with status [Active] and the given
    title, description and people, appends it after the stored projects,
    and then calls every registered listener once, in registration order,
    each with an array of its own (fresh, not the registry's, different
    from the others') holding the full sequence after the append: what the
    array holds afterwards is what the listener made of a copy of the
    registry's array. *)
Theorem addProject_appends_and_notifies :
  forall (cmds : list Cmd) rnd t d n,
    let w := run cmds in
    let w' := addProject rnd t d n w in
    let p := mkProject (Number_toString rnd) t d n Active in
    snapshot w' = snapshot w ++ [p]
    /\ listeners w' = listeners w
    /\ rounds w' = S (rounds w)
    /\ exists cs,
         calls w' = calls w ++ cs
         /\ List.map who cs = List.map lname (listeners w)
         /\ Forall (fun c => seen c = snapshot w ++ [p]
                             /\ length (arrs w) <= arg c
                             /\ arg c <> projects w') cs
         /\ NoDup (List.map arg cs)
         /\ Forall2 (handed w') (listeners w) cs.
Proof.
  intros cmds rnd t d n w w' p.
  pose proof (wf_run cmds) as Hw. fold w in Hw.
  assert (Hw' : wf w') by exact (wf_exec w (CAddProject rnd t d n) Hw).
  pose proof (addProject_handed rnd t d n w Hw) as Hh. fold w' p in Hh.
  revert Hh. generalize (handed w'). intros handed_w' Hh.
  rewrite (snapshot_wf _ Hw'), (snapshot_wf _ Hw).
  assert (Hlt : projects w < length (arrs w))
    by (eapply lookup_lt_Some; apply (wf_arr _ Hw)).
  unfold w'. rewrite (addProject_eq _ _ _ _ _ Hw). cbv zeta. fold p.
  cbn [objs arrs listeners projects calls rounds].
  repeat split.
  exists (calls_from (length (arrs w)) (objs w ++ [p]) (listeners w)).
  split; [reflexivity|]. split; [|split; [|split; [|exact Hh]]].
  - apply calls_from_who.
  - apply Forall_forall. intros c Hin. rewrite list_elem_of_In in Hin.
    pose proof (calls_from_arg_range _ _ _ _ Hin) as Hr.
    pose proof (calls_from_seen (length (arrs w)) (objs w ++ [p])
                  (listeners w)) as Hs.
    rewrite Forall_forall in Hs. rewrite <- list_elem_of_In in Hin.
    specialize (Hs c Hin). simpl in Hs. repeat split; [exact Hs|lia|lia].
  - rewrite calls_from_arg. apply NoDup_ListNoDup, seq_NoDup.
Qed.

(** The sample of the design document: after
    [addProject("T", "a valid description", 5)] both listeners have been
    handed exactly one project, with status [Active] and [people = 5]; the
    first listener emptying its array did not change what the second was
    handed, nor the registry. *)
Example addProject_sample :
  List.map who (calls (run one_project)) = [0; 1]
  /\ List.map seen (calls (run one_project)) = [[the_project]; [the_project]]
  /\ snapshot (run one_project) = [the_project]
  /\ status the_project = Active /\ people the_project = Dec 5 0
  /\ view (run one_project) 1 = [] /\ view (run one_project) 2 = [the_project].
Proof. repeat split. Qed.

(** C3, as the code has it.  When the first project with id [i] has a
    status other than [s], [moveProject i s] runs one notification round:
    every listener is called once more, in order, and handed an array that
    holds the sequence after the move; in that sequence the project found
    has status [s] and its other fields as before, and the project at every
    other position is the one that was there. *)
Theorem moveProject_moves_and_notifies :
  forall (cmds : list Cmd) i s k p,
    find_project i (snapshot (run cmds)) = Some (k, p) ->
    status p <> s ->
    let w := run cmds in
    let w' := moveProject i s w in
    rounds w' = S (rounds w)
    /\ (exists cs,
          calls w' = calls w ++ cs
          /\ List.map who cs = List.map lname (listeners w)
          /\ Forall (fun c => seen c = snapshot w') cs
          /\ Forall2 (handed w') (listeners w) cs)
    /\ snapshot w' = <[k := set_status s p]> (snapshot w)
    /\ snapshot w' !! k
       = Some (mkProject i (title p) (description p) (people p) s)
    /\ forall j, j <> k -> snapshot w' !! j = snapshot w !! j.
Proof.
  intros cmds i s k p Hfind Hst w w'.
  pose proof (wf_run cmds) as Hw. fold w in Hw, Hfind.
  assert (Hw' : wf w') by exact (wf_exec w (CMoveProject i s) Hw).
  rewrite (snapshot_wf _ Hw').
  rewrite (snapshot_wf _ Hw) in *.
  destruct (find_project_Some _ _ _ _ Hfind) as (Hk & Hid & _).
  assert (Eq : status_eqb (status p) s = false).
  { destruct (status_eqb (status p) s) eqn:Eq; [|reflexivity].
    apply status_eqb_eq in Eq. contradiction. }
  pose proof (moved_handed i s w k p Hw Hfind Eq) as Hh. fold w' in Hh.
  revert Hh. generalize (handed w'). intros handed_w' Hh.
  assert (E : w' = moved k s w).
  { unfold w'. now rewrite (moveProject_eq _ _ _ Hw), Hfind, Eq. }
  rewrite E. unfold moved. cbn [objs arrs listeners projects calls rounds].
  rewrite (alter_as_insert _ _ _ _ Hk) in *.
  split; [reflexivity|]. split; [|split; [reflexivity|split]].
  - eexists. split; [reflexivity|]. split; [|split].
    + apply calls_from_who.
    + apply calls_from_seen.
    + exact Hh.
  - rewrite list_lookup_insert_eq by (eapply lookup_lt_Some; exact Hk).
    unfold set_status. now rewrite Hid.
  - intros j Hj. now apply list_lookup_insert_ne.
Qed.

(** C4. [moveProject i s] changes nothing at all, and calls no listener,
    when no project has id [i] or when the first project with id [i]
    already has status [s]; a notification round runs exactly when neither
    is the case, and then every listener is called. *)
Theorem moveProject_noop_iff :
  forall (cmds : list Cmd) i s,
    let w := run cmds in
    let w' := moveProject i s w in
    (move_is_noop i s (snapshot w) ->
       w' = w /\ snapshot w' = snapshot w /\ calls w' = calls w)
    /\ (rounds w' = S (rounds w) <-> ~ move_is_noop i s (snapshot w))
    /\ (rounds w' = rounds w <-> move_is_noop i s (snapshot w))
    /\ (~ move_is_noop i s (snapshot w) ->
          length (calls w') = length (calls w) + length (listeners w)).
Proof.
  intros cmds i s w w'.
  pose proof (wf_run cmds) as Hw. fold w in Hw.
  rewrite (snapshot_wf _ Hw).
  assert (E := moveProject_eq i s w Hw). fold w' in E.
  set (noop := move_is_noop i s (objs w)).
  assert (Hsame : noop -> w' = w ->
    (noop -> w' = w /\ snapshot w' = objs w /\ calls w' = calls w)
    /\ (rounds w' = S (rounds w) <-> ~ noop)
    /\ (rounds w' = rounds w <-> noop)
    /\ (~ noop ->
          length (calls w') = length (calls w) + length (listeners w))).
  { intros Hno ->. split; [intros _; repeat split; now apply snapshot_wf|].
    split; [split; [intros H; lia | intros H; contradiction]|].
    split; [split; [intros _; exact Hno | reflexivity]|].
    intros H; contradiction. }
  destruct (find_project i (objs w)) as [[k p]|] eqn:Hf.
  - destruct (status_eqb (status p) s) eqn:Eq.
    + apply status_eqb_eq in Eq. apply Hsame; [|exact E].
      right. exists k, p. rewrite Hf. auto.
    + assert (Hne : status p <> s).
      { intros H. apply status_eqb_eq in H. congruence. }
      assert (Hno : ~ noop).
      { intros [H|(k0 & p0 & H & H')]; rewrite Hf in H; [discriminate|].
        injection H as -> ->. contradiction. }
      clear Hsame. rewrite E. unfold moved.
      cbn [objs arrs listeners projects calls rounds].
      split; [intros H; contradiction|].
      split; [split; [intros _; exact Hno | reflexivity]|].
      split; [split; [intros H; lia | intros H; contradiction]|].
      intros _. now rewrite length_app, calls_from_length.
  - apply Hsame; [|exact E]. left. exact Hf.
Qed.

(** C9. [moveProject] keeps the registry's array as it is (same objects,
    same order, same length), and the id, title, description and people of
    the project at every position. *)
Theorem moveProject_keeps_sequence_and_fields :
  forall (cmds : list Cmd) i s,
    let w := run cmds in
    let w' := moveProject i s w in
    projects w' = projects w
    /\ read_arr w' (projects w') = read_arr w (projects w)
    /\ length (snapshot w') = length (snapshot w)
    /\ List.map id (snapshot w') = List.map id (snapshot w)
    /\ List.map title (snapshot w') = List.map title (snapshot w)
    /\ List.map description (snapshot w')
       = List.map description (snapshot w)
    /\ List.map people (snapshot w') = List.map people (snapshot w).
Proof.
  intros cmds i s w w'.
  pose proof (wf_run cmds) as Hw. fold w in Hw.
  assert (Hw' : wf w') by exact (wf_exec w (CMoveProject i s) Hw).
  rewrite (snapshot_wf _ Hw'), (snapshot_wf _ Hw).
  assert (E := moveProject_eq i s w Hw). fold w' in E.
  destruct (find_project i (objs w)) as [[k p]|];
    [destruct (status_eqb (status p) s)|];
    try (rewrite E; repeat split; reflexivity).
  assert (Hp : projects w' = projects w) by now rewrite E.
  split; [exact Hp|]. split.
  - rewrite (read_arr_Some _ _ _ (wf_arr _ Hw')).
    rewrite (read_arr_Some _ _ _ (wf_arr _ Hw)).
    rewrite E. unfold moved. cbn [objs]. now rewrite length_alter.
  - rewrite E. unfold moved. cbn [objs].
    rewrite length_alter.
    repeat split; now apply map_alter_set_status.
Qed.

Lemma lookup_map {A B} (f : A -> B) (l : list A) i :
  List.map f l !! i = f <$> l !! i.
Proof.
  revert i. induction l as [|x l IH]; intros [|i]; simpl; auto.
Qed.

Lemma read_arr_write_ne a b xs w :
  a <> b -> read_arr (write_arr a xs w) b = read_arr w b.
Proof.
  intros H. unfold read_arr, write_arr. cbn [arrs].
  now rewrite list_lookup_insert_ne.
Qed.

Lemma view_write_ne a b xs w :
  a <> b -> view (write_arr a xs w) b = view w b.
Proof.
  intros H. unfold view. now rewrite read_arr_write_ne.
Qed.

(** Every command hands the listeners it calls fresh arrays holding the
    registry's sequence as the command leaves it. *)
Lemma exec_calls w c :
  wf w ->
  exists cs,
    calls (exec w c) = calls w ++ cs
    /\ Forall (fun k => seen k = snapshot (exec w c)
                        /\ length (arrs w) <= arg k) cs
    /\ (cs = [] \/ Forall2 (handed (exec w c)) (listeners w) cs).
Proof.
  intros Hw. pose proof (wf_exec w c Hw) as Hw'.
  rewrite (snapshot_wf _ Hw').
  assert (Hround : forall v ls,
            Forall (fun k => seen k = v /\ length (arrs w) <= arg k)
                   (calls_from (length (arrs w)) v ls)).
  { intros v ls. apply Forall_forall. intros k Hin.
    pose proof (calls_from_seen (length (arrs w)) v ls) as Hs.
    rewrite Forall_forall in Hs. split; [now apply Hs|].
    rewrite list_elem_of_In in Hin.
    apply calls_from_arg_range in Hin. lia. }
  destruct c as [fn | rnd t d n | i s]; cbn [exec] in *.
  - exists []. split; [now rewrite app_nil_r|]. split; [constructor|now left].
  - pose proof (addProject_handed rnd t d n w Hw) as Hh.
    revert Hh. generalize (handed (addProject rnd t d n w)). intros hd Hh.
    rewrite (addProject_eq _ _ _ _ _ Hw). cbv zeta.
    cbn [objs calls]. eexists. split; [reflexivity|].
    split; [apply Hround | right; exact Hh].
  - pose proof (moved_handed i s w) as Hh.
    revert Hh. generalize (handed (moveProject i s w)). intros hd Hh.
    rewrite (moveProject_eq _ _ _ Hw).
    destruct (find_project i (objs w)) as [[k p]|];
      [destruct (status_eqb (status p) s) eqn:Es|];
      try (exists []; split; [now rewrite app_nil_r|];
           split; [constructor | now left]).
    unfold moved. cbn [objs calls].
    eexists. split; [reflexivity|].
    split; [apply Hround | right; exact (Hh k p Hw eq_refl Es)].
Qed.

Lemma snapshot_write_status a k s r w :
  wf w -> read_arr w a !! k = Some r ->
  arrs (write_status a k s w) = arrs w
  /\ objs (write_status a k s w) = alter (set_status s) r (objs w)
  /\ snapshot (write_status a k s w) = alter (set_status s) r (snapshot w).
Proof.
  intros Hw Hr. rewrite (snapshot_wf _ Hw).
  unfold write_status. rewrite Hr. cbn [arrs objs].
  split; [reflexivity|]. split; [reflexivity|].
  unfold snapshot, view. cbn [projects objs].
  rewrite (read_arr_Some (mkWorld _ _ _ _ _ _) (projects w)
             (seq 0 (length (objs w)))) by apply (wf_arr _ Hw).
  rewrite <- (length_alter (set_status s) (objs w) r) at 1.
  apply omap_lookup_all.
Qed.

(** C5, as the code has it.  Whatever the mutation, each listener it
    notifies is handed a fresh array that holds a copy of the registry's
    array (then what the listener makes of it).  Any two arrays handed out
    in a session, to two listeners or to one listener twice, are different
    arrays, and none is the registry's: overwriting the entries of one of
    them leaves the other and the registry's sequence and projects as they
    were.  The copy is of the array only: its entries are the registry's
    own project objects, so a status written through an entry of any array
    is written in the registry's project. *)
Theorem snapshots_are_independent_copies :
  (forall (cmds : list Cmd) (c : Cmd),
     exists cs,
       calls (exec (run cmds) c) = calls (run cmds) ++ cs
       /\ Forall (fun k => seen k = snapshot (exec (run cmds) c)
                           /\ length (arrs (run cmds)) <= arg k) cs
       /\ (cs = []
           \/ Forall2 (handed (exec (run cmds) c))
                      (listeners (run cmds)) cs))
  /\ (forall (cmds : list Cmd) (i j : nat) (c1 c2 : Call) (xs : list loc),
        calls (run cmds) !! i = Some c1 ->
        calls (run cmds) !! j = Some c2 ->
        i <> j ->
        let w := run cmds in
        let w' := write_arr (arg c1) xs w in
        arg c1 <> arg c2
        /\ arg c1 <> projects w
        /\ read_arr w' (arg c1) = xs
        /\ read_arr w' (arg c2) = read_arr w (arg c2)
        /\ view w' (arg c2) = view w (arg c2)
        /\ read_arr w' (projects w') = read_arr w (projects w)
        /\ snapshot w' = snapshot w
        /\ objs w' = objs w)
  /\ (forall (cmds : list Cmd) (a : loc) (k : nat) (r : loc)
             (s : ProjectStatus),
        read_arr (run cmds) a !! k = Some r ->
        let w := run cmds in
        let w' := write_status a k s w in
        arrs w' = arrs w
        /\ objs w' = alter (set_status s) r (objs w)
        /\ snapshot w' = alter (set_status s) r (snapshot w)).
Proof.
  split.
  { intros cmds c. apply exec_calls, wf_run. }
  split.
  2:{ intros cmds a k r s Hr w w'.
      apply snapshot_write_status; [apply wf_run | exact Hr]. }
  intros cmds i j c1 c2 xs H1 H2 Hij w w'.
  pose proof (wf_run cmds) as Hw. fold w in Hw, H1, H2.
  destruct Hw as [Ha Hc Hn].
  rewrite Forall_forall in Hc.
  assert (Hin1 : c1 ∈ calls w) by (eapply list_elem_of_lookup_2; exact H1).
  destruct (Hc c1 Hin1) as [Hlt Hne].
  assert (Hd : arg c1 <> arg c2).
  { intros E. apply Hij.
    apply (NoDup_lookup _ i j (arg c1) Hn); rewrite lookup_map.
    - now rewrite H1.
    - now rewrite H2, E. }
  split; [exact Hd|]. split; [exact Hne|]. split.
  { unfold w', read_arr, write_arr. cbn [arrs].
    now rewrite list_lookup_insert_eq. }
  split; [now apply read_arr_write_ne|].
  split; [now apply view_write_ne|].
  split; [now apply read_arr_write_ne|].
  split; [now apply view_write_ne | reflexivity].
Qed.

(** The arrays are copies of the sequence, not of the projects: an array
    handed out in one round holds the registry's own objects, and shows the
    status a later [moveProject] writes. *)
Example earlier_array_holds_registry_objects :
  let w := run [CAddListener (mkListener 0 (fun xs => xs));
                CAddProject (Dec 5 (-1)) (lit "T") (lit "a description")
                            (Dec 5 0)] in
  let w' := moveProject (lit "0.5") Finished w in
  List.map arg (calls w) = [1]
  /\ List.map status (view w 1) = [Active]
  /\ List.map status (view w' 1) = [Finished].
Proof. repeat split. Qed.

(** C1 fails as stated: when [Math.random()] returns 0.5 in two calls of
    [addProject], the snapshot emitted after the second call holds two
    projects with the id ["0.5"]. *)
Lemma addProject_ids_may_collide :
  exists c,
    In c (calls (addProject half (lit "U") (lit "another one") (Dec 2 0)
                            (run one_project)))
    /\ List.map id (seen c) = [lit "0.5"; lit "0.5"]
    /\ ~ NoDup (List.map id (seen c)).
Proof.
  exists (mkCall 0 3 [the_project;
                      mkProject (lit "0.5") (lit "U") (lit "another one")
                                (Dec 2 0) Active]).
  split; [vm_compute; tauto|].
  split; [reflexivity|].
  intros H. cbn [seen List.map] in H.
  apply NoDup_cons in H. destruct H as [Hn _].
  apply Hn. rewrite list_elem_of_In. left. reflexivity.
Qed.

(** C3 fails as stated: after [Math.random()] returned 0.5 twice and the
    first of the two projects was moved, the registry holds a project with
    id ["0.5"] whose status is not [Finished], and yet
    [moveProject("0.5", Finished)] finds the first one, notifies nobody and
    changes nothing. *)
Lemma moveProject_ignores_later_match :
  (exists p, In p (snapshot (run collided))
             /\ id p = lit "0.5" /\ status p <> Finished)
  /\ rounds (moveProject (lit "0.5") Finished (run collided))
     = rounds (run collided)
  /\ calls (moveProject (lit "0.5") Finished (run collided))
     = calls (run collided)
  /\ snapshot (moveProject (lit "0.5") Finished (run collided))
     = snapshot (run collided).
Proof.
  split; [|split; [|split]]; try (vm_compute; reflexivity).
  exists (mkProject (lit "0.5") (lit "U") (lit "another one") (Dec 2 0)
                    Active).
  split; [vm_compute; tauto|]. split; [reflexivity | discriminate].
Qed.

Lemma moveProject_moves_and_notifies_witness :
  rounds (moveProject (lit "0.5") Finished (run two_readers)) = 2
  /\ snapshot (moveProject (lit "0.5") Finished (run two_readers)) !! 0
     = Some (mkProject (lit "0.5") (lit "T") (lit "a valid description")
                       (Dec 5 0) Finished)
  /\ exists cs,
       calls (moveProject (lit "0.5") Finished (run two_readers))
       = calls (run two_readers) ++ cs
       /\ Forall2 (handed (moveProject (lit "0.5") Finished
                                       (run two_readers)))
                  (listeners (run two_readers)) cs.
Proof.
  destruct (moveProject_moves_and_notifies two_readers (lit "0.5") Finished
              0 the_project)
    as (H1 & (cs & Hcs & _ & _ & Hh) & _ & H4 & _).
  - vm_compute. reflexivity.
  - discriminate.
  - split; [exact H1|]. split; [exact H4|].
    exists cs. split; [exact Hcs | exact Hh].
Defined.

(** C5 fails as stated: two listeners were handed an array each for the
    same [addProject]; the first one writes the status of the project in
    its array, and the project in the second one's array and in the
    registry has the new status. *)
Lemma field_write_reaches_registry :
  List.map arg (calls (run two_readers)) = [1; 2]
  /\ List.map status (view (run two_readers) 2) = [Active]
  /\ List.map status (snapshot (run two_readers)) = [Active]
  /\ List.map status
       (view (write_status 1 0 Finished (run two_readers)) 2) = [Finished]
  /\ List.map status
       (snapshot (write_status 1 0 Finished (run two_readers))) = [Finished].
Proof.
  split; [|split; [|split; [|split]]]; vm_compute; reflexivity.
Qed.

Lemma snapshots_are_independent_copies_witness :
  view (run two_readers) 1 = [the_project]
  /\ read_arr (write_arr 1 [] (run two_readers)) 1 = []
  /\ view (write_arr 1 [] (run two_readers)) 2 = view (run two_readers) 2
  /\ snapshot (write_arr 1 [] (run two_readers))
     = snapshot (run two_readers)
  /\ snapshot (write_status 1 0 Finished (run two_readers))
     = alter (set_status Finished) 0 (snapshot (run two_readers)).
Proof.
  destruct snapshots_are_independent_copies as (_ & Hind & Hshare).
  destruct (Hind two_readers 0 1 (mkCall 0 1 [the_project])
              (mkCall 1 2 [the_project]) [])
    as (_ & _ & H3 & _ & H5 & _ & H7 & _).
  - vm_compute. reflexivity.
  - vm_compute. reflexivity.
  - discriminate.
  - destruct (Hshare two_readers 1 0 0 Finished) as (_ & _ & H).
    + vm_compute. reflexivity.
    + split; [vm_compute; reflexivity|].
      split; [exact H3|]. split; [exact H5|]. split; [exact H7 | exact H].
Defined.

End RegistryClaims.

(** ** Drag and drop *)

Module DragClaims.
Import Js Registry Drag DragSpec.

Lemma str_eqb_true a b : str_eqb a b = true <-> a = b.
Proof. unfold str_eqb. apply bool_decide_eq_true. Qed.

Lemma str_eqb_refl a : str_eqb a a = true.
Proof. now apply str_eqb_true. Qed.

Lemma classList_add_in token cl : In token (classList_add token cl).
Proof.
  unfold classList_add. destruct (existsb _ cl) eqn:E.
  - apply existsb_exists in E. destruct E as (x & Hin & Hx).
    apply str_eqb_true in Hx. now subst.
  - apply in_or_app. right. left. reflexivity.
Qed.

Lemma dragOver_cases this event :
  (declared_type event = Some text_plain
   /\ dragOverHandler this event =
        (mkProjectList (type this) (classList_add droppable (classList this)),
         mkDragEvent (dataTransfer event) true,
         [PreventDefault; ClassListAdd droppable]))
  \/ (declared_type event <> Some text_plain
      /\ dragOverHandler this event = (this, event, [])).
Proof.
  unfold dragOverHandler, declared_type.
  destruct (dataTransfer event) as [dt|]; [|right; split; [discriminate|auto]].
  destruct (head (types dt)) as [t0|]; [|right; split; [discriminate|auto]].
  fold text_plain. destruct (str_eqb t0 text_plain) eqn:E.
  - apply str_eqb_true in E. subst. left. auto.
  - right. split; [|reflexivity]. intros H. injection H as ->.
    rewrite str_eqb_refl in E. discriminate.
Qed.

(** C7. On a drag-over, the handler accepts (it calls [preventDefault] and
    adds the [droppable] class to the list) exactly when the declared type
    of the payload is ["text/plain"]; for any other declared type, or with
    no payload at all, it makes no DOM call and leaves the event and the
    list as they were.  A ["text/plain"] payload is accepted, a ["Files"]
    payload is not. *)
Theorem dragOver_accepts_only_plain_text :
  (forall (this : ProjectList) (event : DragEvent),
     let '(this', event', doms) := dragOverHandler this event in
     (doms = [PreventDefault; ClassListAdd droppable]
        <-> declared_type event = Some text_plain)
     /\ (declared_type event = Some text_plain ->
           defaultPrevented event' = true
           /\ In droppable (classList this')
           /\ type this' = type this
           /\ dataTransfer event' = dataTransfer event)
     /\ (declared_type event <> Some text_plain ->
           this' = this /\ event' = event /\ doms = []))
  /\ (forall this data,
        dragOverHandler this
          (mkDragEvent (Some (mkDataTransfer [(text_plain, data)] [])) false)
        = (mkProjectList (type this)
             (classList_add droppable (classList this)),
           mkDragEvent (Some (mkDataTransfer [(text_plain, data)] [])) true,
           [PreventDefault; ClassListAdd droppable]))
  /\ (forall this data,
        let event :=
          mkDragEvent (Some (mkDataTransfer [(lit "Files", data)] [])) false in
        dragOverHandler this event = (this, event, [])).
Proof.
  split; [|split; intros; reflexivity].
  intros this event.
  destruct (dragOver_cases this event) as [[Hd ->]|[Hd ->]].
  - split; [split; auto|]. split; [|intros H; contradiction].
    intros _. cbn [defaultPrevented classList type dataTransfer].
    repeat split. apply classList_add_in.
  - split; [split; [discriminate | intros H; contradiction]|].
    split; [intros H; contradiction | auto].
Qed.

Lemma getData_setData_eq f d dt : getData f (setData f d dt) = d.
Proof.
  unfold getData, setData. cbn [items].
  induction (items dt) as [|[g e] l IH]; simpl.
  - now rewrite str_eqb_refl.
  - destruct (str_eqb g f) eqn:E; simpl; [exact IH|]. now rewrite E.
Qed.

Lemma getData_setData_ne f g d dt :
  g <> f -> getData g (setData f d dt) = getData g dt.
Proof.
  intros Hne. unfold getData, setData. cbn [items].
  assert (Hgf : str_eqb f g = false).
  { destruct (str_eqb f g) eqn:E; [|reflexivity].
    apply str_eqb_true in E. congruence. }
  induction (items dt) as [|[h e] l IH]; simpl.
  - now rewrite Hgf.
  - destruct (str_eqb h f) eqn:E; simpl.
    + apply str_eqb_true in E. subst h. now rewrite Hgf.
    + destruct (str_eqb h g); [reflexivity | exact IH].
Qed.

(** C8, as the code has it.  With a transfer channel, the drag-start
    handler returns, having stored the id of the card's project as the
    ["text/plain"] payload (the payloads of other formats are kept) and set
    the allowed effect to ["move"], and nothing else of the event changes.
    With no channel it does not return: the unguarded [event.dataTransfer!]
    raises a [TypeError] (before anything is changed). *)
Theorem dragStart_sets_payload_or_throws :
  forall (this : ProjectItem) (event : DragEvent),
    (forall dt, dataTransfer event = Some dt ->
       exists dt',
         dragStartHandler this event
           = Normal (mkDragEvent (Some dt') (defaultPrevented event))
         /\ getData text_plain dt' = id (project this)
         /\ effectAllowed dt' = lit "move"
         /\ forall format, format <> text_plain ->
               getData format dt' = getData format dt)
    /\ (dataTransfer event = None ->
          dragStartHandler this event = ThrowTypeError).
Proof.
  intros this event. split.
  - intros dt Hdt. unfold dragStartHandler. rewrite Hdt.
    eexists. split; [reflexivity|]. fold text_plain.
    cbn [set_effectAllowed effectAllowed]. unfold getData at 1. cbn [items].
    split; [apply (getData_setData_eq text_plain)|].
    split; [reflexivity|].
    intros format Hf. unfold getData at 1. cbn [items].
    now apply (getData_setData_ne text_plain).
  - intros Hdt. unfold dragStartHandler. now rewrite Hdt.
Qed.

(** C8 fails as stated: with no transfer channel the handler does not
    return at all, so it is not a silent no-op. *)
Lemma dragStart_without_channel_throws :
  dragStartHandler card no_channel = ThrowTypeError
  /\ ~ exists event', dragStartHandler card no_channel = Normal event'.
Proof.
  split; [reflexivity|]. intros [event' H]. discriminate H.
Qed.

Lemma dragStart_sets_payload_or_throws_witness :
  (exists dt',
     dragStartHandler card
       (mkDragEvent (Some (mkDataTransfer [] (lit "uninitialized"))) false)
     = Normal (mkDragEvent (Some dt') false)
     /\ getData text_plain dt' = lit "0.5"
     /\ effectAllowed dt' = lit "move")
  /\ dragStartHandler card no_channel = ThrowTypeError.
Proof.
  split.
  - destruct (proj1 (dragStart_sets_payload_or_throws card
                       (mkDragEvent
                          (Some (mkDataTransfer [] (lit "uninitialized")))
                          false))
                    (mkDataTransfer [] (lit "uninitialized")) eq_refl)
      as (dt' & H1 & H2 & H3 & _).
    exists dt'. split; [exact H1|]. split; [exact H2 | exact H3].
  - exact (proj2 (dragStart_sets_payload_or_throws card no_channel) eq_refl).
Defined.

End DragClaims.

(** * Further properties of the code *)

(** ** The registry over whole sessions *)

Module RegistryMore.
Import Js Registry RegistrySpec RegistryFacts MoreSpec.

Local Open Scope nat_scope.

Lemma set_status_back s p : set_status (status p) (set_status s p) = p.
Proof. now destruct p. Qed.

Lemma alter_insert_at {A} (f : A -> A) (l : list A) k x :
  l !! k = Some x -> alter f k l = <[k := f x]> l.
Proof.
  intros H. apply list_eq. intros j. destruct (decide (j = k)) as [->|Hne].
  - rewrite list_lookup_alter_eq, H.
    now rewrite list_lookup_insert_eq by (eapply lookup_lt_Some; exact H).
  - now rewrite list_lookup_alter_ne, list_lookup_insert_ne by congruence.
Qed.

Lemma map_alter_status {B} (g : Project -> B) s k (l : list Project) :
  (forall p, g (set_status s p) = g p) ->
  List.map g (alter (set_status s) k l) = List.map g l.
Proof.
  intros Hg. revert k. induction l as [|x l IH]; intros k; [reflexivity|].
  destruct k as [|k]; simpl; [now rewrite Hg | f_equal; apply IH].
Qed.

(** The first project with an id stays the first one with it when a status
    is rewritten at its position. *)
Lemma find_project_moved i s k p (l : list Project) :
  find_project i l = Some (k, p) ->
  find_project i (alter (set_status s) k l) = Some (k, set_status s p).
Proof.
  intros H. apply find_project_Some in H. destruct H as (Hk & Hid & Hfirst).
  unfold find_project. apply list_find_Some. split; [|split].
  - now rewrite list_lookup_alter_eq, Hk.
  - exact Hid.
  - intros j q Hj Hlt. rewrite list_lookup_alter_ne in Hj by lia.
    now apply (Hfirst j q).
Qed.

(** X2. Moving twice to the same status is moving once: the second
    [moveProject] with the same arguments changes nothing and notifies
    nobody. *)
Theorem moveProject_twice :
  forall (cmds : list Cmd) i s,
    moveProject i s (moveProject i s (run cmds)) = moveProject i s (run cmds).
Proof.
  intros cmds i s. pose proof (wf_run cmds) as Hw.
  set (w := run cmds) in *.
  assert (Hw1 : wf (moveProject i s w))
    by exact (wf_exec w (CMoveProject i s) Hw).
  rewrite (moveProject_eq i s _ Hw1).
  assert (E := moveProject_eq i s w Hw).
  destruct (find_project i (objs w)) as [[k p]|] eqn:Hf.
  - destruct (status_eqb (status p) s) eqn:Es.
    + rewrite E, Hf, Es. reflexivity.
    + rewrite E. unfold moved at 1. cbn [objs].
      rewrite (find_project_moved i s k p _ Hf).
      assert (Hs : status_eqb (status (set_status s p)) s = true)
        by exact (proj2 (status_eqb_eq _ _) eq_refl).
      now rewrite Hs.
  - rewrite E, Hf. reflexivity.
Qed.

(** X3. Moving the first project with id [i] to another status and then
    back to the status it had restores the registry's sequence. *)
Theorem moveProject_and_back :
  forall (cmds : list Cmd) i s k p,
    find_project i (snapshot (run cmds)) = Some (k, p) ->
    snapshot (moveProject i (status p) (moveProject i s (run cmds)))
    = snapshot (run cmds).
Proof.
  intros cmds i s k p Hf. pose proof (wf_run cmds) as Hw.
  set (w := run cmds) in *.
  assert (Hw1 : wf (moveProject i s w))
    by exact (wf_exec w (CMoveProject i s) Hw).
  assert (Hw2 : wf (moveProject i (status p) (moveProject i s w)))
    by exact (wf_exec _ (CMoveProject i (status p)) Hw1).
  rewrite (snapshot_wf _ Hw2). rewrite (snapshot_wf _ Hw) in *.
  rewrite (moveProject_eq i (status p) _ Hw1).
  assert (E := moveProject_eq i s w Hw). rewrite Hf in E.
  destruct (find_project_Some _ _ _ _ Hf) as (Hk & _ & _).
  destruct (status_eqb (status p) s) eqn:Es.
  - rewrite E, Hf.
    assert (Hs : status_eqb (status p) (status p) = true)
      by exact (proj2 (status_eqb_eq _ _) eq_refl).
    now rewrite Hs.
  - rewrite E. unfold moved at 1 2. cbn [objs].
    rewrite (find_project_moved i s k p _ Hf).
    destruct (status_eqb (status (set_status s p)) (status p)) eqn:Eb.
    + apply status_eqb_eq in Eb. cbn [status set_status] in Eb.
      rewrite <- Eb, (proj2 (status_eqb_eq s s) eq_refl) in Es.
      discriminate.
    + unfold moved. cbn [objs].
      rewrite (alter_insert_at (set_status s) _ _ _ Hk).
      rewrite (alter_insert_at _ _ k (set_status s p))
        by (apply list_lookup_insert_eq; eapply lookup_lt_Some; exact Hk).
      rewrite list_insert_insert_eq, set_status_back.
      now apply list_insert_id.
Qed.

Lemma exec_fields w c :
  wf w ->
  exists rest,
    List.map fields (objs (exec w c)) = List.map fields (objs w) ++ rest.
Proof.
  intros Hw. destruct c as [fn | rnd t d n | i s]; cbn [exec].
  - exists []. now rewrite app_nil_r.
  - rewrite (addProject_eq _ _ _ _ _ Hw). cbv zeta. cbn [objs].
    eexists. now rewrite map_app.
  - exists []. rewrite app_nil_r, (moveProject_eq _ _ _ Hw).
    destruct (find_project i (objs w)) as [[k p]|]; [|reflexivity].
    destruct (status_eqb (status p) s); [reflexivity|].
    unfold moved. cbn [objs]. now apply map_alter_status.
Qed.

Lemma run_app cmds cmds' : run (cmds ++ cmds') = foldl exec (run cmds) cmds'.
Proof. unfold run. apply foldl_app. Qed.

Lemma wf_foldl cmds w : wf w -> wf (foldl exec w cmds).
Proof.
  revert w. induction cmds as [|c cmds IH]; intros w Hw; simpl; [exact Hw|].
  apply IH. now apply wf_exec.
Qed.

(** X4. No command removes or reorders projects or rewrites an id, title,
    description or people: whatever follows a session, the projects it left
    stay where they are with those fields, and new ones come after them. *)
Theorem projects_are_kept :
  forall (cmds cmds' : list Cmd),
  exists rest,
    List.map fields (snapshot (run (cmds ++ cmds')))
    = List.map fields (snapshot (run cmds)) ++ rest.
Proof.
  intros cmds cmds'.
  rewrite (snapshot_wf _ (wf_run _)), (snapshot_wf _ (wf_run _)).
  induction cmds' as [|c cmds' IH] using rev_ind.
  - exists []. now rewrite !app_nil_r.
  - destruct IH as [rest IH].
    rewrite app_assoc, run_snoc.
    destruct (exec_fields (run (cmds ++ cmds')) c (wf_run _)) as [more Hm].
    exists (rest ++ more). now rewrite Hm, IH, app_assoc.
Qed.

(** X5. Listeners are only ever added: after a session the registry holds
    the listeners that were registered, in registration order, a listener
    registered twice being held twice. *)
Theorem listeners_are_registered :
  forall cmds : list Cmd, listeners (run cmds) = registered cmds.
Proof.
  induction cmds as [|c cmds IH] using rev_ind; [reflexivity|].
  rewrite run_snoc. unfold registered. rewrite omap_app.
  fold (registered cmds). rewrite <- IH.
  pose proof (wf_run cmds) as Hw.
  destruct c as [fn | rnd t d n | i s]; cbn [exec omap list_omap].
  - reflexivity.
  - rewrite (addProject_eq _ _ _ _ _ Hw). cbv zeta. cbn [listeners].
    now rewrite app_nil_r.
  - rewrite app_nil_r, (moveProject_eq _ _ _ Hw).
    destruct (find_project i (objs (run cmds))) as [[k p]|]; [|reflexivity].
    now destruct (status_eqb (status p) s).
Qed.

Lemma calls_to_app n cs1 cs2 :
  calls_to n (cs1 ++ cs2) = calls_to n cs1 + calls_to n cs2.
Proof. unfold calls_to. now rewrite List.filter_app, length_app. Qed.

Lemma named_app n ls1 ls2 : named n (ls1 ++ ls2) = named n ls1 + named n ls2.
Proof. unfold named. now rewrite List.filter_app, length_app. Qed.

Lemma calls_to_round n a v ls : calls_to n (calls_from a v ls) = named n ls.
Proof.
  revert a. induction ls as [|l ls IH]; intros a; [reflexivity|].
  specialize (IH (S a)). unfold calls_to, named in *. simpl.
  destruct (lname l =? n); simpl; now rewrite IH.
Qed.

(** One command: it runs no round or one, and a round calls the listeners
    registered under a name once each. *)
Lemma exec_round n w c :
  wf w -> other_name n c ->
  named n (listeners (exec w c)) = named n (listeners w)
  /\ exists r,
       rounds (exec w c) = rounds w + r
       /\ calls_to n (calls (exec w c))
          = calls_to n (calls w) + r * named n (listeners w).
Proof.
  intros Hw Hc. destruct c as [fn | rnd t d m | i s]; cbn [exec].
  - cbn [other_name] in Hc. unfold addListener. cbn [listeners rounds calls].
    split.
    + rewrite named_app. unfold named at 2. simpl.
      apply Nat.eqb_neq in Hc. rewrite Hc. simpl. lia.
    + exists 0. split; lia.
  - rewrite (addProject_eq _ _ _ _ _ Hw). cbv zeta.
    cbn [listeners rounds calls]. split; [reflexivity|].
    exists 1. rewrite calls_to_app, calls_to_round. split; lia.
  - rewrite (moveProject_eq _ _ _ Hw).
    destruct (find_project i (objs w)) as [[k p]|];
      [destruct (status_eqb (status p) s)|];
      try (split; [reflexivity|]; exists 0; split; lia).
    unfold moved. cbn [listeners rounds calls]. split; [reflexivity|].
    exists 1. rewrite calls_to_app, calls_to_round. split; lia.
Qed.

Lemma foldl_rounds n cmds : forall w,
  wf w -> Forall (other_name n) cmds ->
  named n (listeners (foldl exec w cmds)) = named n (listeners w)
  /\ rounds w <= rounds (foldl exec w cmds)
  /\ calls_to n (calls (foldl exec w cmds))
     = calls_to n (calls w)
       + (rounds (foldl exec w cmds) - rounds w) * named n (listeners w).
Proof.
  induction cmds as [|c cmds IH]; intros w Hw Hall; simpl.
  - repeat split; lia.
  - apply Forall_cons in Hall. destruct Hall as [Hc Hall].
    destruct (exec_round n w c Hw Hc) as (Hn & r & Hr & Hcalls).
    destruct (IH (exec w c) (wf_exec w c Hw) Hall) as (Hn' & Hle & Hcalls').
    rewrite Hn', Hn. split; [reflexivity|]. split; [lia|].
    rewrite Hcalls', Hcalls, Hn.
    replace (rounds (foldl exec (exec w c) cmds) - rounds w)
      with (r + (rounds (foldl exec (exec w c) cmds) - rounds (exec w c)))
      by lia.
    rewrite Nat.mul_add_distr_r. lia.
Qed.

(** X6. A listener registered under a name of its own is called once in
    every notification round that runs after its registration, and never
    otherwise: registering it triggers no call (it is not handed the
    projects already stored), and no round skips it or calls it twice. *)
Theorem listener_called_once_per_round :
  forall (cmds1 : list Cmd) (fn : Listener) (cmds2 : list Cmd),
    Forall (other_name (lname fn)) cmds1 ->
    Forall (other_name (lname fn)) cmds2 ->
    calls_to (lname fn) (calls (run (cmds1 ++ CAddListener fn :: cmds2)))
    = rounds (run (cmds1 ++ CAddListener fn :: cmds2)) - rounds (run cmds1).
Proof.
  intros cmds1 fn cmds2 H1 H2. set (n := lname fn).
  rewrite run_app. cbn [foldl].
  destruct (foldl_rounds n cmds1 getInstance wf_getInstance H1)
    as (Hn1 & _ & Hc1).
  fold (run cmds1) in Hn1, Hc1. cbn in Hn1, Hc1.
  rewrite Nat.mul_0_r in Hc1.
  set (w1 := exec (run cmds1) (CAddListener fn)).
  assert (Hw1 : wf w1) by (apply wf_exec, wf_run).
  destruct (foldl_rounds n cmds2 w1 Hw1 H2) as (_ & _ & Hc2).
  rewrite Hc2. unfold w1. cbn [exec]. unfold addListener.
  cbn [calls rounds listeners]. rewrite named_app, Hn1, Hc1.
  unfold named, n. simpl. rewrite Nat.eqb_refl. simpl. lia.
Qed.

(** Every id in the registry is the string form of a number. *)
Lemma ids_are_number_strings cmds p :
  In p (objs (run cmds)) -> exists r, id p = Number_toString r.
Proof.
  intros Hin. apply (in_map id) in Hin.
  rewrite RegistryClaims.ids_are_draws in Hin.
  apply in_map_iff in Hin. destruct Hin as (r & Hr & _). eauto.
Qed.

Lemma nonblank_nonempty (s : jsstring) : length (trim s) <> 0 -> s <> [].
Proof. intros H ->. apply H. reflexivity. Qed.

(** X7. Every project of the registry has an id that is not empty and not
    blank, after any session. *)
Theorem ids_are_not_blank :
  forall cmds : list Cmd,
    Forall (fun p => id p <> [] /\ length (trim (id p)) <> 0)
           (snapshot (run cmds)).
Proof.
  intros cmds. rewrite (snapshot_wf _ (wf_run cmds)).
  apply Forall_forall. intros p Hin. rewrite list_elem_of_In in Hin.
  destruct (ids_are_number_strings cmds p Hin) as [r ->].
  pose proof (JsFacts.Number_toString_trim r) as H.
  split; [now apply nonblank_nonempty | exact H].
Qed.

End RegistryMore.

(** ** Validation of text *)

Module ValidationMore.
Import Js Validation JsFacts ValidationFacts MoreSpec.

Lemma drop_ws_of_blank (s : jsstring) : blank s -> drop_ws s = [].
Proof.
  induction 1 as [|c s Hc _ IH]; simpl; [reflexivity|]. now rewrite Hc.
Qed.

(** A string trims to the empty string exactly when it is blank. *)
Lemma trim_blank_iff (s : jsstring) : length (trim s) = 0%nat <-> blank s.
Proof.
  split.
  - intros Hlen.
    destruct (Forall_Exists_dec (fun c => is_ws c = true)
                (fun c => is_ws c <> true)
                (fun c => bool_dec (is_ws c) true) s)
      as [Hall|Hex]; [exact Hall|].
    apply Exists_exists in Hex. destruct Hex as (c & Hin & Hc).
    apply not_true_is_false in Hc.
    rewrite list_elem_of_In in Hin.
    now destruct (trim_nonblank s c Hin Hc).
  - intros Hb. unfold trim. now rewrite (drop_ws_of_blank s Hb).
Qed.

Lemma trim_eqb_blank (s : jsstring) :
  negb (length (trim s) =? 0)%nat = true <-> ~ blank s.
Proof.
  rewrite negb_true_iff, Nat.eqb_neq. now rewrite trim_blank_iff.
Qed.

(** X1. A required text value is rejected exactly when it is blank: empty,
    or made of white space and line terminators only. *)
Theorem required_text_rejected_iff_blank :
  forall s : jsstring,
    validate (mkValidatable (VStr s) (Some true) None None None None) = false
    <-> blank s.
Proof.
  intros s. rewrite validate_unfold. cbn.
  rewrite !andb_true_r, negb_false_iff, Nat.eqb_eq.
  apply trim_blank_iff.
Qed.

End ValidationMore.

(** ** The drag handlers together *)

Module DragMore.
Import Js Registry Drag DragSpec RegistrySpec RegistryFacts MoreSpec.
Import DragClaims.

Lemma existsb_str_eqb token cl :
  existsb (str_eqb token) cl = true <-> In token cl.
Proof.
  rewrite existsb_exists. split.
  - intros (x & Hin & Hx). apply str_eqb_true in Hx. now subst.
  - intros Hin. exists token. split; [exact Hin | apply str_eqb_refl].
Qed.

Lemma classList_remove_spec token cl c :
  In c (classList_remove token cl) <-> In c cl /\ c <> token.
Proof.
  unfold classList_remove. rewrite filter_In, negb_true_iff. split.
  - intros [Hin Hne]. split; [exact Hin|]. intros ->.
    now rewrite str_eqb_refl in Hne.
  - intros [Hin Hne]. split; [exact Hin|].
    destruct (str_eqb token c) eqn:E; [|reflexivity].
    apply str_eqb_true in E. congruence.
Qed.

Lemma classList_remove_absent token cl :
  ~ In token cl -> classList_remove token cl = cl.
Proof.
  unfold classList_remove. induction cl as [|c cl IH]; intros Hn; simpl;
    [reflexivity|].
  destruct (str_eqb token c) eqn:E; simpl.
  - apply str_eqb_true in E. subst. exfalso. apply Hn. now left.
  - f_equal. apply IH. intros H. apply Hn. now right.
Qed.

Lemma classList_remove_added token cl :
  ~ In token cl -> classList_remove token (cl ++ [token]) = cl.
Proof.
  intros Hn. unfold classList_remove. rewrite List.filter_app.
  cbn [List.filter]. rewrite str_eqb_refl. cbn [negb].
  rewrite app_nil_r. now apply classList_remove_absent.
Qed.

(** X11. [dragLeaveHandler] clears the marker whatever the state: after it
    the list does not carry [droppable], every other class is kept, the
    type of the list is kept, and a second leave changes nothing. *)
Theorem dragLeave_clears_marker :
  forall (this : ProjectList) (event event2 : DragEvent),
    let this' := fst (dragLeaveHandler this event) in
    ~ In droppable (classList this')
    /\ (forall c, c <> droppable ->
          (In c (classList this') <-> In c (classList this)))
    /\ type this' = type this
    /\ fst (dragLeaveHandler this' event2) = this'.
Proof.
  intros this event event2. cbn [dragLeaveHandler fst classList type].
  fold droppable. split; [|split; [|split]].
  - rewrite classList_remove_spec. intros [_ H]. now apply H.
  - intros c Hc. rewrite classList_remove_spec. tauto.
  - reflexivity.
  - f_equal. apply classList_remove_absent.
    rewrite classList_remove_spec. intros [_ H]. now apply H.
Qed.

(** X12. An accepted drag-over followed by a drag-leave gives back the
    list as it was, when the list did not carry the marker before. *)
Theorem dragOver_then_dragLeave :
  forall (this : ProjectList) (event event2 : DragEvent),
    declared_type event = Some text_plain ->
    ~ In droppable (classList this) ->
    fst (dragLeaveHandler (fst (fst (dragOverHandler this event))) event2)
    = this.
Proof.
  intros this event event2 Hd Hn.
  destruct (dragOver_cases this event) as [[_ ->]|[Hne _]];
    [|contradiction].
  cbn [fst dragLeaveHandler classList type]. fold droppable.
  unfold classList_add.
  destruct (existsb (str_eqb droppable) (classList this)) eqn:E.
  - apply existsb_str_eqb in E. contradiction.
  - rewrite (classList_remove_added _ _ Hn). now destruct this.
Qed.

(** X13. Hovering repeats: a second drag-over on the list the first one
    left gives the same list, so the marker is never added twice. *)
Theorem dragOver_twice :
  forall (this : ProjectList) (event event2 : DragEvent),
    declared_type event = Some text_plain ->
    fst (fst (dragOverHandler (fst (fst (dragOverHandler this event)))
                              event2))
    = fst (fst (dragOverHandler this event)).
Proof.
  intros this event event2 Hd.
  destruct (dragOver_cases this event) as [[_ ->]|[Hne _]];
    [|contradiction].
  cbn [fst].
  set (this1 := mkProjectList (type this)
                  (classList_add droppable (classList this))).
  destruct (dragOver_cases this1 event2) as [[_ ->]|[_ ->]];
    [|reflexivity].
  cbn [fst]. unfold this1. cbn [type classList]. f_equal.
  unfold classList_add at 1.
  assert (H : existsb (str_eqb droppable)
                (classList_add droppable (classList this)) = true)
    by (apply existsb_str_eqb, classList_add_in).
  now rewrite H.
Qed.

Lemma head_types_after_setData f d dt :
  head (types (setData f d dt)) = Some f
  <-> Forall (fun it => fst it = f) (items dt).
Proof.
  unfold types, setData. cbn [items].
  induction (items dt) as [|[g e] l IH]; simpl.
  - split; [constructor | reflexivity].
  - destruct (str_eqb g f) eqn:E; simpl.
    + apply str_eqb_true in E. subst g. rewrite IH. split.
      * intros H. now constructor.
      * intros H. now apply Forall_cons in H.
    + split.
      * intros H. injection H as ->. rewrite str_eqb_refl in E.
        discriminate.
      * intros H. apply Forall_cons in H. destruct H as [H _].
        simpl in H. subst g. rewrite str_eqb_refl in E. discriminate.
Qed.

(** X9. The payload travels from the card to the list: a drag started on a
    card, with whatever the channel held before, then dropped on a list,
    asks the registry to move the project of that card to the status of
    that list. *)
Theorem dragStart_then_drop :
  forall (card0 : ProjectItem) (target : ProjectList) (dt : DataTransfer)
         (prevented : bool) (w : World),
  exists event',
    dragStartHandler card0 (mkDragEvent (Some dt) prevented) = Normal event'
    /\ dropHandler target event' w
       = Normal (moveProject (id (project card0)) (status_of target) w).
Proof.
  intros card0 target dt prevented w. eexists. split; [reflexivity|].
  unfold dropHandler, status_of. cbn [dataTransfer]. fold text_plain.
  unfold getData, set_effectAllowed. cbn [items].
  fold (getData text_plain
          (setData text_plain (id (project card0)) dt)).
  now rewrite getData_setData_eq.
Qed.

(** X10. For a channel that holds text entries only (no file): after a
    drag start, a list accepts the drag-over exactly when the channel held
    no entry of another format before: [setData] puts the plain-text entry
    last and the handler looks at the first type only.  In particular a
    drag started with an empty channel is accepted. *)
Theorem dragOver_after_dragStart :
  forall (card0 : ProjectItem) (this : ProjectList) (dt : DataTransfer)
         (prevented : bool),
  Forall (fun it => fst it <> lit "Files") (items dt) ->
  exists event',
    dragStartHandler card0 (mkDragEvent (Some dt) prevented) = Normal event'
    /\ (snd (dragOverHandler this event')
          = [PreventDefault; ClassListAdd droppable]
        <-> Forall (fun it => fst it = text_plain) (items dt))
    /\ (items dt = [] ->
        snd (dragOverHandler this event')
          = [PreventDefault; ClassListAdd droppable]).
Proof.
  intros card0 this dt prevented _. eexists. split; [reflexivity|].
  match goal with
  | |- context [dragOverHandler this ?e] => set (ev := e)
  end.
  assert (Hd : declared_type ev = Some text_plain
               <-> Forall (fun it => fst it = text_plain) (items dt)).
  { unfold ev, declared_type. cbn [dataTransfer].
    unfold set_effectAllowed, types. cbn [items].
    apply (head_types_after_setData text_plain). }
  assert (Hiff : snd (dragOverHandler this ev)
                   = [PreventDefault; ClassListAdd droppable]
                 <-> Forall (fun it => fst it = text_plain) (items dt)).
  { rewrite <- Hd.
    destruct (dragOver_cases this ev) as [[H ->]|[H ->]]; cbn [snd].
    - tauto.
    - split; [discriminate | contradiction]. }
  split; [exact Hiff|]. intros He. apply Hiff. rewrite He. constructor.
Qed.

(** X8. A drop whose channel holds no plain-text payload leaves the
    registry as it is and notifies nobody: [getData] yields the empty
    string, and no project has the empty id. *)
Theorem drop_without_text_is_noop :
  forall (cmds : list Cmd) (target : ProjectList) (dt : DataTransfer)
         (prevented : bool),
    getData text_plain dt = [] ->
    dropHandler target (mkDragEvent (Some dt) prevented) (run cmds)
    = Normal (run cmds).
Proof.
  intros cmds target dt prevented Hg.
  unfold dropHandler. cbn [dataTransfer]. fold text_plain. rewrite Hg.
  f_equal. rewrite (moveProject_eq _ _ _ (wf_run cmds)).
  assert (Hnone : find_project [] (objs (run cmds)) = None).
  { apply find_project_None. apply Forall_forall. intros p Hin.
    rewrite list_elem_of_In in Hin.
    destruct (RegistryMore.ids_are_number_strings cmds p Hin) as [r ->].
    apply RegistryMore.nonblank_nonempty, JsFacts.Number_toString_trim. }
  now rewrite Hnone.
Qed.

End DragMore.

(** ** The two lists as views of the registry *)

Module ViewsFacts.
Import Js Registry Drag RegistrySpec RegistryFacts Views MoreSpec.

Local Open Scope nat_scope.

Lemma status_eqb_both (s : ProjectStatus) :
  status_eqb s Active = negb (status_eqb s Finished).
Proof. now destruct s. Qed.

Lemma relevant_In this ps q :
  In q (relevantProjects this ps) <-> In q ps /\ status q = status_of this.
Proof.
  unfold relevantProjects, status_of. rewrite filter_In.
  destruct (type this); now rewrite status_eqb_eq.
Qed.

(** X14. The two lists split the projects between them: a project handed
    to the listeners is kept by the list of its status and by that list
    only, so every project shows in exactly one of an active and a
    finished list, and the two lists together hold as many projects as
    there are. *)
Theorem lists_partition_projects :
  forall (cla clf : list jsstring) (projects : list Project),
    let la := mkProjectList active cla in
    let lf := mkProjectList finished clf in
    (forall q, In q projects <->
               In q (relevantProjects la projects)
               \/ In q (relevantProjects lf projects))
    /\ (forall q, ~ (In q (relevantProjects la projects)
                     /\ In q (relevantProjects lf projects)))
    /\ length (relevantProjects la projects)
       + length (relevantProjects lf projects) = length projects.
Proof.
  intros cla clf ps la lf. split; [|split].
  - intros q. rewrite !relevant_In. unfold status_of, la, lf. cbn [type].
    destruct (status q); tauto.
  - intros q. rewrite !relevant_In. unfold status_of, la, lf. cbn [type].
    intros [[_ H1] [_ H2]]. congruence.
  - unfold relevantProjects, la, lf. cbn [type].
    induction ps as [|x ps IH]; [reflexivity|]. simpl.
    rewrite status_eqb_both.
    destruct (status_eqb (status x) Finished); simpl; lia.
Qed.

Lemma last_seen_app name cs1 cs2 :
  last_seen name (cs1 ++ cs2) =
    match last_seen name cs2 with
    | Some v => Some v
    | None => last_seen name cs1
    end.
Proof.
  induction cs1 as [|c cs1 IH]; simpl.
  - now destruct (last_seen name cs2).
  - rewrite IH. now destruct (last_seen name cs2).
Qed.

Lemma last_seen_round name a v ls :
  last_seen name (calls_from a v ls) =
    if existsb (fun l => lname l =? name) ls then Some v else None.
Proof.
  revert a. induction ls as [|l ls IH]; intros a; [reflexivity|].
  cbn [calls_from last_seen existsb who]. rewrite (IH (S a)).
  destruct (existsb (fun l0 => lname l0 =? name) ls);
    [now rewrite orb_true_r|].
  rewrite orb_false_r. now destruct (lname l =? name).
Qed.

Lemma in_step_round name w os ls' arrs' n' v :
  listens name w ->
  in_step name
    (mkWorld os arrs' ls' (projects w)
       (calls w ++ calls_from v os (listeners w)) n').
Proof.
  intros Hl. unfold in_step. cbn [calls objs].
  rewrite last_seen_app, last_seen_round. unfold listens in Hl.
  now rewrite Hl.
Qed.

Lemma exec_in_step name w c :
  wf w -> listens name w -> in_step name w ->
  listens name (exec w c) /\ in_step name (exec w c).
Proof.
  intros Hw Hl Hs. destruct c as [fn | rnd t d n | i s]; cbn [exec].
  - split; [|exact Hs]. unfold listens, addListener in *. cbn [listeners].
    rewrite existsb_app, Hl. reflexivity.
  - rewrite (addProject_eq _ _ _ _ _ Hw). cbv zeta.
    split; [exact Hl | now apply in_step_round].
  - rewrite (moveProject_eq _ _ _ Hw).
    destruct (find_project i (objs w)) as [[k p]|];
      [destruct (status_eqb (status p) s)|]; try (split; assumption).
    unfold moved. split; [exact Hl | now apply in_step_round].
Qed.

Lemma foldl_in_step name cmds : forall w,
  wf w -> listens name w -> in_step name w ->
  in_step name (foldl exec w cmds).
Proof.
  induction cmds as [|c cmds IH]; intros w Hw Hl Hs; simpl; [exact Hs|].
  destruct (exec_in_step name w c Hw Hl Hs) as [Hl' Hs'].
  apply IH; [now apply wf_exec | exact Hl' | exact Hs'].
Qed.

Lemma assigned_in_step this name w :
  wf w -> in_step name w ->
  assignedProjects this name w = relevantProjects this (snapshot w).
Proof.
  intros Hw Hs. rewrite (snapshot_wf _ Hw).
  unfold assignedProjects, in_step in *.
  destruct (last_seen name (calls w)) as [v|]; now rewrite Hs.
Qed.

Lemma assigned_after_boot (cmds : list Cmd) (this : ProjectList) :
  assignedProjects this 0 (run (Ui.boot ++ cmds))
  = relevantProjects this (objs (run (Ui.boot ++ cmds)))
  /\ assignedProjects this 1 (run (Ui.boot ++ cmds))
     = relevantProjects this (objs (run (Ui.boot ++ cmds))).
Proof.
  rewrite <- (snapshot_wf _ (wf_run (Ui.boot ++ cmds))).
  rewrite RegistryMore.run_app.
  assert (Hw : wf (run Ui.boot)) by apply wf_run.
  split; apply assigned_in_step;
    try (apply RegistryMore.wf_foldl; exact Hw);
    apply foldl_in_step; try exact Hw; reflexivity.
Qed.

(** X15. The lists follow the registry: after any session of the page (the
    two lists registered at start-up, then any commands), what each list
    holds in [assignedProjects] is the registry's sequence filtered by the
    status of the list: nothing stale, nothing missing, in registry
    order. *)
Theorem lists_follow_registry :
  forall (cmds : list Cmd) (this : ProjectList),
    assignedProjects this 0 (run (Ui.boot ++ cmds))
    = relevantProjects this (snapshot (run (Ui.boot ++ cmds)))
    /\ assignedProjects this 1 (run (Ui.boot ++ cmds))
       = relevantProjects this (snapshot (run (Ui.boot ++ cmds))).
Proof.
  intros cmds this. rewrite (snapshot_wf _ (wf_run (Ui.boot ++ cmds))).
  apply assigned_after_boot.
Qed.

Lemma rev_persons_ne (s : jsstring) :
  s ++ lit " persons" <> lit "1 person".
Proof.
  intros H. apply (f_equal (@rev N)) in H. rewrite rev_app_distr in H.
  discriminate H.
Qed.

(** X18. The card says ["1 person"] exactly when the head-count equals 1;
    for every other number it says the number followed by [" persons"]
    (also for 0, fractions and [NaN]); for a whole number [m] the singular
    is used exactly when [m = 1]. *)
Theorem persons_singular_iff_one :
  forall this : ProjectItem,
    (persons this = lit "1 person"
       <-> num_eqb (people (project this)) (Dec 1 0) = true)
    /\ (num_eqb (people (project this)) (Dec 1 0) = false ->
          persons this
          = Number_toString (people (project this)) ++ lit " persons")
    /\ (forall m : Z,
          people (project this) = Dec m 0 ->
          (persons this = lit "1 person" <-> m = 1%Z))
    /\ h3_text (renderContent this) = persons this ++ lit " assigned".
Proof.
  intros this.
  assert (H1 : persons this = lit "1 person"
               <-> num_eqb (people (project this)) (Dec 1 0) = true).
  { unfold persons.
    destruct (num_eqb (people (project this)) (Dec 1 0)).
    - tauto.
    - split; [|discriminate]. intros H. now apply rev_persons_ne in H. }
  split; [exact H1|]. split; [|split; [|reflexivity]].
  - intros H. unfold persons. now rewrite H.
  - intros m Hm. rewrite H1, Hm. unfold num_eqb, dec_le. simpl.
    rewrite !Z.mul_1_r, andb_true_iff, !Z.leb_le. lia.
Qed.

End ViewsFacts.

(** ** The form and the page *)

Module UiFacts.
Import Js Validation Registry Drag RegistrySpec RegistryFacts Views Ui.
Import MoreSpec.

Local Open Scope nat_scope.

Lemma passes_acceptable t d n : passes t d n = true <-> acceptable t d n.
Proof.
  unfold passes, acceptable.
  rewrite !andb_true_iff, !ValidationMore.trim_eqb_blank, Nat.leb_le.
  tauto.
Qed.

Lemma passes_not_acceptable t d n :
  passes t d n = false <-> ~ acceptable t d n.
Proof.
  rewrite <- passes_acceptable. now destruct (passes t d n).
Qed.

Lemma min_length_five (d : jsstring) :
  num_ge (of_nat (length d)) (Dec 5 0) = (5 <=? length d).
Proof.
  unfold num_ge, of_nat. rewrite JsFacts.num_le_integers.
  destruct (Nat.leb_spec 5 (length d)); [apply Z.leb_le | apply Z.leb_gt];
    lia.
Qed.

Section WithToNumber.

Variable ToNumber : jsstring -> number.

Lemma gatherUserInput_eq (this : ProjectInput) :
  gatherUserInput ToNumber this =
    let n := ToNumber (peopleInput this) in
    if passes (titleInput this) (descriptionInput this) n
    then (Some (titleInput this, descriptionInput this, n), [])
    else (None, [Alert invalid_input]).
Proof.
  unfold gatherUserInput. cbv zeta.
  rewrite !ValidationFacts.validate_unfold.
  cbn [required minLength maxLength min max v_value truthy value_toString].
  rewrite !andb_true_r, min_length_five.
  pose proof (JsFacts.Number_toString_trim (ToNumber (peopleInput this)))
    as Hn.
  apply Nat.eqb_neq in Hn. rewrite Hn. cbn [negb andb].
  unfold passes, num_ge, invalid_input.
  destruct (negb (length (trim (titleInput this)) =? 0));
    destruct (negb (length (trim (descriptionInput this)) =? 0)
              && (5 <=? length (descriptionInput this)));
    destruct (num_le (Dec 1 0) (ToNumber (peopleInput this))
              && num_le (ToNumber (peopleInput this)) (Dec 10 0));
    reflexivity.
Qed.

(** X16. Submitting the form: when the title and the description are not
    blank, the description has five code units or more and the head-count
    [n = +people] satisfies [1 <= n <= 10], one project with exactly these
    values is added and the three fields are cleared; otherwise the
    registry and the fields stay as they are and the user is alerted.  The
    default action of the submit is prevented in both cases. *)
Theorem submitHandler_gate :
  forall (rnd : number) (this : ProjectInput) (w : World),
    let n := ToNumber (peopleInput this) in
    (acceptable (titleInput this) (descriptionInput this) n ->
       submitHandler ToNumber rnd this w
       = (mkProjectInput [] [] [],
          addProject rnd (titleInput this) (descriptionInput this) n w,
          [SubmitPreventDefault]))
    /\ (~ acceptable (titleInput this) (descriptionInput this) n ->
          submitHandler ToNumber rnd this w
          = (this, w, [SubmitPreventDefault; Alert invalid_input])).
Proof.
  intros rnd this w n. unfold submitHandler.
  rewrite gatherUserInput_eq. cbv zeta. fold n. split.
  - intros H. apply passes_acceptable in H. now rewrite H.
  - intros H. apply passes_not_acceptable in H. now rewrite H.
Qed.

(** Every page a sequence of events reaches holds a world that a session
    of registry commands reaches, and only projects that passed the
    form. *)
Lemma ui_run_inv (evs : list UiEvent) :
  (exists cmds, world (ui_run ToNumber evs) = run (boot ++ cmds))
  /\ Forall valid_project (objs (world (ui_run ToNumber evs))).
Proof.
  induction evs as [|ev evs IH] using rev_ind.
  - split; [exists []; now rewrite app_nil_r | constructor].
  - unfold ui_run in *. rewrite foldl_snoc.
    set (pg := foldl (ui_step ToNumber) start evs) in *.
    destruct IH as [[cmds Hc] Hv].
    assert (Hw : wf (world pg)) by (rewrite Hc; apply wf_run).
    destruct ev as [t d n | rnd | target event]; cbn [ui_step].
    + cbn [world]. split; [exists cmds; exact Hc | exact Hv].
    + unfold submitHandler. rewrite gatherUserInput_eq. cbv zeta.
      destruct (passes _ _ _) eqn:Hp; cbn [world].
      * split.
        -- exists (cmds ++ [CAddProject rnd (titleInput (form pg))
                              (descriptionInput (form pg))
                              (ToNumber (peopleInput (form pg)))]).
           now rewrite app_assoc, run_snoc, <- Hc.
        -- rewrite (addProject_eq _ _ _ _ _ Hw). cbv zeta. cbn [objs].
           apply Forall_app. split; [exact Hv|].
           constructor; [|constructor].
           apply passes_acceptable in Hp. exact Hp.
      * split; [exists cmds; exact Hc | exact Hv].
    + unfold dropHandler.
      destruct (dataTransfer event) as [dt|];
        [|split; [exists cmds; exact Hc | exact Hv]].
      cbn [world].
      set (i := getData (lit "text/plain") dt).
      set (s := match type target with
                | active => Active
                | finished => Finished
                end).
      split.
      * exists (cmds ++ [CMoveProject i s]).
        now rewrite app_assoc, run_snoc, <- Hc.
      * rewrite (moveProject_eq _ _ _ Hw).
        destruct (find_project i (objs (world pg))) as [[k p]|];
          [|exact Hv].
        destruct (status_eqb (status p) s); [exact Hv|].
        unfold moved. cbn [objs].
        apply Forall_forall. intros q Hq.
        apply list_elem_of_lookup in Hq. destruct Hq as [j Hj].
        rewrite Forall_forall in Hv.
        destruct (decide (j = k)) as [->|Hne].
        -- rewrite list_lookup_alter_eq in Hj.
           destruct (objs (world pg) !! k) as [p0|] eqn:Hk;
             [|discriminate].
           injection Hj as <-.
           apply (Hv p0). eapply list_elem_of_lookup_2. exact Hk.
        -- rewrite list_lookup_alter_ne in Hj by congruence.
           apply (Hv q). eapply list_elem_of_lookup_2. exact Hj.
Qed.

(** X17. Whatever the user types, submits and drops, every project in the
    registry passed the form: its title and description are not blank, its
    description has five code units or more, and its head-count [n]
    satisfies [1 <= n <= 10]. *)
Theorem registry_holds_validated_projects :
  forall evs : list UiEvent,
    Forall valid_project (snapshot (world (ui_run ToNumber evs))).
Proof.
  intros evs. destruct (ui_run_inv evs) as [[cmds Hc] Hv].
  rewrite (snapshot_wf _) by (rewrite Hc; apply wf_run). exact Hv.
Qed.

End WithToNumber.

End UiFacts.

(** ** Cards moving between the lists *)

Module PageFacts.
Import Js Validation Registry Drag RegistrySpec RegistryFacts Views Ui.
Import MoreSpec ViewsFacts.

Local Open Scope nat_scope.

Lemma relevant_app this l1 l2 :
  relevantProjects this (l1 ++ l2)
  = relevantProjects this l1 ++ relevantProjects this l2.
Proof. unfold relevantProjects. apply List.filter_app. Qed.

Lemma relevant_length_insert this (l : list Project) k q q' :
  l !! k = Some q ->
  length (relevantProjects this (<[k := q']> l)) + shown this q
  = length (relevantProjects this l) + shown this q'.
Proof.
  intros Hk.
  rewrite insert_take_drop by (eapply lookup_lt_Some; exact Hk).
  rewrite <- (take_drop_middle l k q Hk) at 3.
  change (q' :: drop (S k) l) with ([q'] ++ drop (S k) l).
  change (q :: drop (S k) l) with ([q] ++ drop (S k) l).
  rewrite !relevant_app, !length_app. unfold shown. lia.
Qed.

Lemma shown_iff this q :
  shown this q = (if status_eqb (status q) (status_of this) then 1 else 0).
Proof.
  unfold shown, relevantProjects, status_of. simpl.
  destruct (type this); now destruct (status_eqb (status q) _).
Qed.

(** X20. A move that takes effect carries the card from one list to the
    other: the list bound to the new status shows one project more, the
    moved one, and the list bound to the old status shows one project
    less and nothing it did not show before. *)
Theorem move_shifts_card :
  forall (cmds : list Cmd) i s k q (lt lo : ProjectList),
    find_project i (snapshot (run cmds)) = Some (k, q) ->
    status q <> s ->
    status_of lt = s ->
    status_of lo = status q ->
    let w := run cmds in
    let w' := moveProject i s w in
    length (relevantProjects lt (snapshot w'))
    = S (length (relevantProjects lt (snapshot w)))
    /\ S (length (relevantProjects lo (snapshot w')))
       = length (relevantProjects lo (snapshot w))
    /\ In (set_status s q) (relevantProjects lt (snapshot w'))
    /\ (forall x, In x (relevantProjects lo (snapshot w')) ->
                  In x (relevantProjects lo (snapshot w))).
Proof.
  intros cmds i s k q lt lo Hf Hne Ht Ho w w'.
  pose proof (wf_run cmds) as Hw. fold w in Hw, Hf.
  assert (Hw' : wf w') by exact (wf_exec w (CMoveProject i s) Hw).
  rewrite (snapshot_wf _ Hw'). rewrite (snapshot_wf _ Hw) in *.
  destruct (find_project_Some _ _ _ _ Hf) as (Hk & _ & _).
  assert (E : objs w' = <[k := set_status s q]> (objs w)).
  { unfold w'. rewrite (moveProject_eq _ _ _ Hw), Hf.
    destruct (status_eqb (status q) s) eqn:Eq.
    - apply status_eqb_eq in Eq. contradiction.
    - unfold moved. cbn [objs].
      now apply RegistryMore.alter_insert_at. }
  rewrite E.
  pose proof (relevant_length_insert lt _ k q (set_status s q) Hk) as Hlt.
  pose proof (relevant_length_insert lo _ k q (set_status s q) Hk) as Hlo.
  rewrite !shown_iff in Hlt, Hlo. rewrite Ht in Hlt. rewrite Ho in Hlo.
  cbn [status set_status] in Hlt, Hlo.
  rewrite (proj2 (status_eqb_eq s s) eq_refl) in Hlt.
  rewrite (proj2 (status_eqb_eq (status q) (status q)) eq_refl) in Hlo.
  assert (E1 : status_eqb (status q) s = false).
  { destruct (status_eqb (status q) s) eqn:Eq; [|reflexivity].
    apply status_eqb_eq in Eq. contradiction. }
  assert (E2 : status_eqb s (status q) = false).
  { destruct (status_eqb s (status q)) eqn:Eq; [|reflexivity].
    apply status_eqb_eq in Eq. congruence. }
  rewrite E1 in Hlt. rewrite E2 in Hlo.
  split; [lia|]. split; [lia|]. split.
  - apply relevant_In. split; [|now rewrite Ht].
    rewrite <- list_elem_of_In. eapply list_elem_of_lookup_2.
    apply list_lookup_insert_eq. eapply lookup_lt_Some. exact Hk.
  - intros x Hx. apply relevant_In in Hx. destruct Hx as [Hin Hst].
    apply relevant_In. split; [|exact Hst].
    rewrite <- list_elem_of_In in Hin.
    apply list_elem_of_lookup in Hin. destruct Hin as [j Hj].
    destruct (decide (j = k)) as [->|Hjk].
    + rewrite list_lookup_insert_eq in Hj
        by (eapply lookup_lt_Some; exact Hk).
      injection Hj as <-. cbn [status set_status] in Hst.
      rewrite Ho in Hst. congruence.
    + rewrite list_lookup_insert_ne in Hj by congruence.
      rewrite <- list_elem_of_In. eapply list_elem_of_lookup_2. exact Hj.
Qed.

Section WithToNumber.

Variable ToNumber : jsstring -> number.

(** X19. A submission that passes the form shows at once: after the user
    has typed acceptable values and submitted, the active list holds what
    it held followed by the new project (status [Active], values as
    typed), the finished list holds what it held, and the form is
    empty. *)
Theorem valid_submit_shows_in_active_list :
  forall (evs : list UiEvent) (t d n : jsstring) (rnd : number)
         (cla clf : list jsstring),
    acceptable t d (ToNumber n) ->
    let la := mkProjectList active cla in
    let lf := mkProjectList finished clf in
    let pg := ui_run ToNumber evs in
    let pg' := ui_run ToNumber (evs ++ [Typed t d n; Submit rnd]) in
    assignedProjects la 0 (world pg')
    = assignedProjects la 0 (world pg)
        ++ [mkProject (Number_toString rnd) t d (ToNumber n) Active]
    /\ assignedProjects lf 1 (world pg') = assignedProjects lf 1 (world pg)
    /\ form pg' = mkProjectInput [] [] [].
Proof.
  intros evs t d n rnd cla clf Hok la lf pg pg'.
  destruct (UiFacts.ui_run_inv ToNumber evs) as [[cmds Hc] _].
  fold pg in Hc.
  assert (Hw : wf (world pg)) by (rewrite Hc; apply wf_run).
  assert (E : pg' = mkPage (mkProjectInput [] [] [])
                      (addProject rnd t d (ToNumber n) (world pg))).
  { unfold pg', ui_run. rewrite foldl_app. fold (ui_run ToNumber evs).
    fold pg. cbn [foldl ui_step form world].
    unfold submitHandler. rewrite UiFacts.gatherUserInput_eq.
    cbv zeta. cbn [titleInput descriptionInput peopleInput].
    apply UiFacts.passes_acceptable in Hok. now rewrite Hok. }
  assert (Hc' : world pg'
                = run (boot ++ cmds ++ [CAddProject rnd t d (ToNumber n)])).
  { rewrite E. cbn [world]. now rewrite app_assoc, run_snoc, <- Hc. }
  split; [|split; [|now rewrite E]].
  - rewrite Hc', (proj1 (assigned_after_boot _ la)), <- Hc'.
    rewrite Hc, (proj1 (assigned_after_boot _ la)), <- Hc.
    rewrite E. cbn [world]. rewrite (addProject_eq _ _ _ _ _ Hw).
    cbv zeta. cbn [objs]. now rewrite relevant_app.
  - rewrite Hc', (proj2 (assigned_after_boot _ lf)), <- Hc'.
    rewrite Hc, (proj2 (assigned_after_boot _ lf)), <- Hc.
    rewrite E. cbn [world]. rewrite (addProject_eq _ _ _ _ _ Hw).
    cbv zeta. cbn [objs]. rewrite relevant_app. apply app_nil_r.
Qed.

End WithToNumber.

End PageFacts.

(** ** Instances *)

Module Instances.
Import Js Validation Registry Drag RegistrySpec DragSpec Views Ui MoreSpec.

Local Open Scope nat_scope.

Definition files_only : DataTransfer :=
  mkDataTransfer [(lit "Files", lit "photo.png")] (lit "all").

Definition text_drag : DragEvent :=
  mkDragEvent (Some (mkDataTransfer [(text_plain, lit "0.5")] (lit "move")))
              false.

Definition plain_list : ProjectList :=
  mkProjectList finished [lit "projects"].

Definition html_only : DataTransfer :=
  mkDataTransfer [(lit "text/html", lit "<b>T</b>")] (lit "uninitialized").

Lemma dragOver_after_dragStart_witness :
  exists event',
    dragStartHandler card (mkDragEvent (Some html_only) false)
    = Normal event'
    /\ snd (dragOverHandler plain_list event')
       <> [PreventDefault; ClassListAdd droppable].
Proof.
  destruct (DragMore.dragOver_after_dragStart card plain_list html_only
              false)
    as (event' & H1 & Hiff & _).
  - constructor; [discriminate | constructor].
  - exists event'. split; [exact H1|]. intros H. apply Hiff in H.
    apply Forall_inv in H. vm_compute in H. discriminate H.
Defined.

Lemma moveProject_and_back_witness :
  snapshot (moveProject (lit "0.5") (status the_project)
              (moveProject (lit "0.5") Finished (run one_project)))
  = snapshot (run one_project).
Proof.
  apply (RegistryMore.moveProject_and_back one_project (lit "0.5") Finished
           0 the_project).
  vm_compute. reflexivity.
Defined.

Lemma listener_called_once_per_round_witness :
  calls_to 7
    (calls (run ([] ++ CAddListener (reader 7)
                 :: [CAddProject half (lit "T") (lit "a valid description")
                                 (Dec 5 0);
                     CAddListener (reader 8);
                     CMoveProject (lit "0.5") Finished])))
  = rounds (run ([] ++ CAddListener (reader 7)
                 :: [CAddProject half (lit "T") (lit "a valid description")
                                 (Dec 5 0);
                     CAddListener (reader 8);
                     CMoveProject (lit "0.5") Finished]))
    - rounds (run []).
Proof.
  apply (RegistryMore.listener_called_once_per_round [] (reader 7)).
  - constructor.
  - repeat (constructor; try exact I). cbn. lia.
Defined.

Lemma drop_without_text_is_noop_witness :
  dropHandler plain_list (mkDragEvent (Some files_only) false)
              (run one_project)
  = Normal (run one_project).
Proof.
  apply (DragMore.drop_without_text_is_noop one_project plain_list
           files_only false).
  vm_compute. reflexivity.
Defined.

Lemma dragOver_then_dragLeave_witness :
  fst (dragLeaveHandler (fst (fst (dragOverHandler plain_list text_drag)))
                        text_drag)
  = plain_list.
Proof.
  apply (DragMore.dragOver_then_dragLeave plain_list text_drag text_drag).
  - vm_compute. reflexivity.
  - intros [H|[]]. vm_compute in H. discriminate H.
Defined.

Lemma dragOver_twice_witness :
  fst (fst (dragOverHandler
              (fst (fst (dragOverHandler plain_list text_drag))) text_drag))
  = fst (fst (dragOverHandler plain_list text_drag)).
Proof.
  apply (DragMore.dragOver_twice plain_list text_drag text_drag).
  vm_compute. reflexivity.
Defined.

Lemma move_shifts_card_witness :
  length (relevantProjects (mkProjectList finished [])
            (snapshot (moveProject (lit "0.5") Finished (run one_project))))
  = S (length (relevantProjects (mkProjectList finished [])
                 (snapshot (run one_project))))
  /\ S (length (relevantProjects (mkProjectList active [])
                  (snapshot (moveProject (lit "0.5") Finished
                                         (run one_project)))))
     = length (relevantProjects (mkProjectList active [])
                 (snapshot (run one_project))).
Proof.
  destruct (PageFacts.move_shifts_card one_project (lit "0.5") Finished 0
              the_project (mkProjectList finished [])
              (mkProjectList active []))
    as (H1 & H2 & _).
  - vm_compute. reflexivity.
  - discriminate.
  - reflexivity.
  - reflexivity.
  - split; [exact H1 | exact H2].
Defined.

Lemma valid_submit_shows_in_active_list_witness :
  assignedProjects (mkProjectList active []) 0
    (world (ui_run digits_ToNumber
              ([] ++ [Typed (lit "T") (lit "a valid description") (lit "5");
                      Submit half])))
  = assignedProjects (mkProjectList active []) 0
      (world (ui_run digits_ToNumber []))
    ++ [mkProject (Number_toString half) (lit "T")
                  (lit "a valid description")
                  (digits_ToNumber (lit "5")) Active].
Proof.
  destruct (PageFacts.valid_submit_shows_in_active_list digits_ToNumber []
              (lit "T") (lit "a valid description") (lit "5") half [] [])
    as (H1 & _).
  - unfold acceptable, blank. split; [|split; [|split; [|split]]].
    + intros H. apply Forall_inv in H. vm_compute in H. discriminate H.
    + intros H. apply Forall_inv in H. vm_compute in H. discriminate H.
    + vm_compute. lia.
    + vm_compute. reflexivity.
    + vm_compute. reflexivity.
  - exact H1.
Defined.

End Instances.
